(** * Verification of the crontab scheduler (package crontab, crontab.go)

    A shallow embedding of the schedule parser ([parsePart], [parseSchedule]),
    the tick matcher ([tick]) and job registration ([AddJob]), followed by the
    theorems that settle the specification's claims about them.

    Conventions of the embedding:
    - a Go [int] is a [Z] kept in the signed 64-bit range, overflow wraps
      ([wrap]);
    - a Go [string] is a [string] of bytes;
    - a [map[int]struct{}] is a finite set [gset Z], [len] is [size];
    - a [for] loop takes fuel: the result [None] means that the loop has
      not finished within the given number of iterations. *)

From Stdlib Require Import ZArith Ascii String List Bool Lia.
From stdpp Require Import base decidable option list gmap sets.

Local Open Scope string_scope.
Local Open Scope Z_scope.

(** ** Machine integers *)

Definition MaxInt : Z := 9223372036854775807.
Definition MinInt : Z := -9223372036854775808.

(** Two's complement wrap-around of a 64-bit signed addition. *)
Definition wrap (z : Z) : Z := (z + 2 ^ 63) mod 2 ^ 64 - 2 ^ 63.

Definition is_int (z : Z) : Prop := MinInt <= z <= MaxInt.

(** ** Bytes and strings *)

Definition is_digit (c : ascii) : bool :=
  let n := N_of_ascii c in ((48 <=? n) && (n <=? 57))%N.

Definition digit_val (c : ascii) : Z := Z.of_N (N_of_ascii c) - 48.

(** The class [\s] of Go's regexp syntax: tab, newline, form feed, carriage
    return and space. *)
Definition is_space (c : ascii) : bool :=
  let n := N_of_ascii c in
  ((n =? 9) || (n =? 10) || (n =? 12) || (n =? 13) || (n =? 32))%N.

Definition is_newline (c : ascii) : bool := (N_of_ascii c =? 10)%N.

Fixpoint all_digits (s : string) : bool :=
  match s with
  | EmptyString => true
  | String c t => is_digit c && all_digits t
  end.

Definition nonempty (s : string) : bool :=
  match s with EmptyString => false | _ => true end.

(** Longest prefix of digits, and what follows it. *)
Fixpoint span_digits (s : string) : string * string :=
  match s with
  | EmptyString => (EmptyString, EmptyString)
  | String c t =>
      if is_digit c
      then let '(d, rest) := span_digits t in (String c d, rest)
      else (EmptyString, s)
  end.

(** ** The Go library functions the parser calls *)

(** Decimal value of a string of digits. *)
Fixpoint decimal (acc : Z) (s : string) : Z :=
  match s with
  | EmptyString => acc
  | String c t => decimal (acc * 10 + digit_val c) t
  end.

(** [strconv.Atoi]: an optional sign and one or more digits. The pair is the
    value and whether the error is nil. A syntax error gives 0, a value
    outside the 64-bit range gives the nearest bound, both with an error. *)
Definition Atoi (s : string) : Z * bool :=
  let '(neg, body) :=
    match s with
    | String "-" t => (true, t)
    | String "+" t => (false, t)
    | _ => (false, s)
    end in
  if nonempty body && all_digits body then
    let v := decimal 0 body in
    if neg
    then if v >? 2 ^ 63 then (MinInt, false) else (- v, true)
    else if v >=? 2 ^ 63 then (MaxInt, false) else (v, true)
  else (0, false).

(** [strings.Split(s, sep)] for a separator of one byte. *)
Fixpoint Split (s : string) (sep : ascii) : list string :=
  match s with
  | EmptyString => [EmptyString]
  | String c t =>
      if Ascii.eqb c sep then EmptyString :: Split t sep
      else match Split t sep with
           | h :: r => String c h :: r
           | [] => [String c EmptyString]
           end
  end.

(** [matchSpaces.ReplaceAllLiteralString(s, " ")] for [matchSpaces = \s+]:
    every maximal run of white space becomes one space. [in_run] tells that
    the preceding byte was white space. *)
Fixpoint replace_spaces (in_run : bool) (s : string) : string :=
  match s with
  | EmptyString => EmptyString
  | String c t =>
      if is_space c
      then if in_run then replace_spaces true t
           else String " " (replace_spaces true t)
      else String c (replace_spaces false t)
  end.

Definition matchSpaces_ReplaceAll (s : string) : string := replace_spaces false s.

(** [matchRange = ^(\d+)-(\d+)$]: the two groups of a match. *)
Definition matchRange (s : string) : option (string * string) :=
  let '(a, rest) := span_digits s in
  match rest with
  | String "-" b =>
      if nonempty a && nonempty b && all_digits b then Some (a, b) else None
  | _ => None
  end.

(** The tail "/(\d+)" of [matchN] at the head of [s]: the digits matched. *)
Definition slash_digits (s : string) : option string :=
  match s with
  | String "/" t =>
      let '(d, _) := span_digits t in
      if nonempty d then Some d else None
  | _ => None
  end.

(** The regular expression [matchN] is a greedy group of any bytes but
    newline, a slash, and a group of one or more digits. [matchN_here]
    matches it anchored at the head of [s]: a longer first group is tried
    before a shorter one. *)
Fixpoint matchN_here (s : string) : option (string * string) :=
  match s with
  | EmptyString => None
  | String c t =>
      let shortest := (fun d => (EmptyString, d)) <$> slash_digits s in
      if is_newline c then shortest
      else match matchN_here t with
           | Some (g1, g2) => Some (String c g1, g2)
           | None => shortest
           end
  end.

(** [matchN.FindStringSubmatch(s)]: the leftmost match, groups 1 and 2. *)
Fixpoint matchN (s : string) : option (string * string) :=
  match matchN_here s with
  | Some m => Some m
  | None =>
      match s with
      | EmptyString => None
      | String _ t => matchN t
      end
  end.

(** ** Errors *)

(** The errors of the package, one constructor per message, with the
    arguments of its format. *)
Inductive error : Type :=
  | ErrComponents
  | ErrOutOfRange (what field : string) (min max : Z)
  | ErrOutOfRangeInt (i : Z) (field : string) (min max : Z)
  | ErrUnableToParsePart (part field : string)
  | ErrUnableToParse (field : string)
  | ErrNotFunc
  | ErrArgCount
  | ErrParamType (i : nat)
  | ErrParamImplements (i : nat).

(** What a call returns: a value with a nil error, or an error. *)
Inductive result (A : Type) : Type :=
  | Ok (a : A)
  | Err (e : error).
Arguments Ok {A} a.
Arguments Err {A} e.

(** ** parsePart *)

(** [for i := i; i <= hi; i += step { r[i] = struct{}{} }]. *)
Fixpoint for_loop (fuel : nat) (i hi step : Z) (r : gset Z) : option (gset Z) :=
  match fuel with
  | O => None
  | S fuel' =>
      if i <=? hi
      then for_loop fuel' (wrap (i + step)) hi step ({[ i ]} ∪ r)
      else Some r
  end.

(** The loop over the terms of a list, [for _, x := range parts], and the
    emptiness test that follows it. *)
Fixpoint parse_terms (fuel : nat) (parts : list string) (s : string)
    (min max : Z) (r : gset Z) : option (result (gset Z)) :=
  match parts with
  | [] =>
      if (Z.of_nat (size r) =? 0) then Some (Err (ErrUnableToParse s))
      else Some (Ok r)
  | x :: rest =>
      match matchRange x with
      | Some (a, b) =>
          let localMin := fst (Atoi a) in
          let localMax := fst (Atoi b) in
          if (localMin <? min) || (localMax >? max)
          then Some (Err (ErrOutOfRange x s min max))
          else match for_loop fuel localMin localMax 1 r with
               | Some r' => parse_terms fuel rest s min max r'
               | None => None
               end
      | None =>
          match Atoi x with
          | (i, true) =>
              if (i <? min) || (i >? max)
              then Some (Err (ErrOutOfRangeInt i s min max))
              else parse_terms fuel rest s min max ({[ i ]} ∪ r)
          | (_, false) => Some (Err (ErrUnableToParsePart x s))
          end
      end
  end.

Definition parsePart (fuel : nat) (s : string) (min max : Z)
    : option (result (gset Z)) :=
  if String.eqb s "*" then Ok <$> for_loop fuel min max 1 ∅
  else
    match matchN s with
    | Some (m1, m2) =>
        let bounds :=
          if nonempty m1 && negb (String.eqb m1 "*") then
            match matchRange m1 with
            | Some (a, b) =>
                let localMin := fst (Atoi a) in
                let localMax := fst (Atoi b) in
                if (localMin <? min) || (localMax >? max)
                then Err (ErrOutOfRange a s min max)
                else Ok (localMin, localMax)
            | None => Err (ErrUnableToParsePart m1 s)
            end
          else Ok (min, max) in
        match bounds with
        | Err e => Some (Err e)
        | Ok (localMin, localMax) =>
            let n := fst (Atoi m2) in
            Ok <$> for_loop fuel localMin localMax n ∅
        end
    | None => parse_terms fuel (Split s ",") s min max ∅
    end.

(** ** Jobs, ticks and the cron table *)

(** [reflect.Kind], as far as [AddJob] tells kinds apart. *)
Inductive Kind : Type := Func | Interface | OtherKind.

#[global] Instance Kind_eq_dec : EqDecision Kind.
Proof. solve_decision. Defined.

(** What a call does: it returns (an error or nil), or it panics. *)
Inductive outcome : Type :=
  | Returned (err : option error)
  | Panicked.

Section Crontab.

(** The [reflect] package and [time.Ticker] are taken as given: [value] are
    the non-nil values an [interface{}] holds (so an [interface{}] is an
    [option value]), [rtype] is [reflect.Type], compared with [==];
    [Ins t] lists the parameter types of a function type ([NumIn], [In]). *)
Variable value : Type.
Variable rtype : Type.
Context `{EqDecision rtype}.
Variable Ticker : Type.
Variable TypeOf : value -> rtype.
Variable KindOf : rtype -> Kind.
Variable Ins : rtype -> list rtype.
Variable Implements : rtype -> rtype -> bool.

Record job : Type := mkJob {
  job_second : gset Z;
  job_min : gset Z;
  job_hour : gset Z;
  job_day : gset Z;
  job_month : gset Z;
  job_dayOfWeek : gset Z;
  job_fn : option value;
  job_args : list (option value)
}.

Record tick : Type := mkTick {
  tick_second : Z;
  tick_min : Z;
  tick_hour : Z;
  tick_day : Z;
  tick_month : Z;
  tick_dayOfWeek : Z
}.

Record Crontab : Type := mkCrontab {
  ticker : Ticker;
  jobs : list job
}.

(** [_, ok := m[k]]. *)
Definition has_key (m : gset Z) (k : Z) : bool := bool_decide (k ∈ m).

(** [job.tick] decides whether the job is launched at the tick. *)
Definition job_tick (j : job) (t : tick) : bool :=
  if negb (has_key (job_second j) (tick_second t)) then false
  else if negb (has_key (job_min j) (tick_min t)) then false
  else if negb (has_key (job_hour j) (tick_hour t)) then false
  else
    let day := has_key (job_day j) (tick_day t) in
    let dayOfWeek := has_key (job_dayOfWeek j) (tick_dayOfWeek t) in
    if negb day && negb dayOfWeek then false
    else if negb (has_key (job_month j) (tick_month t)) then false
    else true.

(** The zero value [job{}]. *)
Definition zero_job : job := mkJob ∅ ∅ ∅ ∅ ∅ ∅ None [].

Definition set_second (j : job) (r : gset Z) : job :=
  mkJob r (job_min j) (job_hour j) (job_day j) (job_month j) (job_dayOfWeek j)
        (job_fn j) (job_args j).
Definition set_min (j : job) (r : gset Z) : job :=
  mkJob (job_second j) r (job_hour j) (job_day j) (job_month j) (job_dayOfWeek j)
        (job_fn j) (job_args j).
Definition set_hour (j : job) (r : gset Z) : job :=
  mkJob (job_second j) (job_min j) r (job_day j) (job_month j) (job_dayOfWeek j)
        (job_fn j) (job_args j).
Definition set_day (j : job) (r : gset Z) : job :=
  mkJob (job_second j) (job_min j) (job_hour j) r (job_month j) (job_dayOfWeek j)
        (job_fn j) (job_args j).
Definition set_month (j : job) (r : gset Z) : job :=
  mkJob (job_second j) (job_min j) (job_hour j) (job_day j) r (job_dayOfWeek j)
        (job_fn j) (job_args j).
Definition set_dayOfWeek (j : job) (r : gset Z) : job :=
  mkJob (job_second j) (job_min j) (job_hour j) (job_day j) (job_month j) r
        (job_fn j) (job_args j).
Definition set_fn_args (j : job) (fn : option value) (args : list (option value)) : job :=
  mkJob (job_second j) (job_min j) (job_hour j) (job_day j) (job_month j)
        (job_dayOfWeek j) fn args.

(** [j.f, err = parsePart(...); if err != nil { return j, err }]: on an
    error the field holds the nil map that [parsePart] returned. *)
Definition parse_field (p : option (result (gset Z))) (set : gset Z -> job)
    (k : job -> option (job * option error)) : option (job * option error) :=
  match p with
  | None => None
  | Some (Err e) => Some (set ∅, Some e)
  | Some (Ok r) => k (set r)
  end.

(** The [switch] that ends [parseSchedule]. *)
Definition day_switch (j : job) : job :=
  if (size (job_day j) <? 31)%nat && (size (job_dayOfWeek j) =? 7)%nat
  then set_dayOfWeek j ∅
  else if (size (job_dayOfWeek j) <? 7)%nat && (size (job_day j) =? 31)%nat
  then set_day j ∅
  else j.

Definition parseSchedule (fuel : nat) (s : string) : option (job * option error) :=
  let s := matchSpaces_ReplaceAll s in
  match Split s " " with
  | [p0; p1; p2; p3; p4; p5] =>
      let j := zero_job in
      parse_field (parsePart fuel p0 0 59) (set_second j) (fun j =>
      parse_field (parsePart fuel p1 0 59) (set_min j) (fun j =>
      parse_field (parsePart fuel p2 0 23) (set_hour j) (fun j =>
      parse_field (parsePart fuel p3 1 31) (set_day j) (fun j =>
      parse_field (parsePart fuel p4 1 12) (set_month j) (fun j =>
      parse_field (parsePart fuel p5 0 6) (set_dayOfWeek j) (fun j =>
      Some (day_switch j, None)))))))
  | _ => Some (zero_job, Some ErrComponents)
  end.

(** The loop of [AddJob] over the parameters of [fn], from index [i] with
    [n] iterations left. An index out of range and a method call on the nil
    [reflect.Type] of a nil argument panic. *)
Fixpoint check_params (n i : nat) (fnType : rtype) (args : list (option value))
    : outcome :=
  match n with
  | O => Returned None
  | S n' =>
      match args !! i, Ins fnType !! i with
      | Some a, Some t1 =>
          let t2 := TypeOf <$> a in
          if decide (Some t1 = t2) then check_params n' (S i) fnType args
          else if negb (bool_decide (KindOf t1 = Interface))
          then Returned (Some (ErrParamType i))
          else match t2 with
               | None => Panicked
               | Some t2 =>
                   if Implements t2 t1
                   then check_params n' (S i) fnType args
                   else Returned (Some (ErrParamImplements i))
               end
      | _, _ => Panicked
      end
  end.

Definition AddJob (fuel : nat) (c : Crontab) (schedule : string)
    (fn : option value) (args : list (option value))
    : option (outcome * Crontab) :=
  match parseSchedule fuel schedule with
  | None => None
  | Some (_, Some err) => Some (Returned (Some err), c)
  | Some (j, None) =>
      match fn with
      | None => Some (Returned (Some ErrNotFunc), c)
      | Some f =>
          let fnType := TypeOf f in
          if negb (bool_decide (KindOf fnType = Func))
          then Some (Returned (Some ErrNotFunc), c)
          else if negb (length args =? length (Ins fnType))%nat
          then Some (Returned (Some ErrArgCount), c)
          else
            match check_params (length (Ins fnType)) 0 fnType args with
            | Returned None =>
                let j := set_fn_args j fn args in
                Some (Returned None, mkCrontab (ticker c) (jobs c ++ [j]))
            | o => Some (o, c)
            end
      end
  end.

(** [Clear] removes all jobs from the cron table. *)
Definition Clear (c : Crontab) : Crontab := mkCrontab (ticker c) [].

End Crontab.

Arguments mkJob {value}.
Arguments job_second {value}.
Arguments job_min {value}.
Arguments job_hour {value}.
Arguments job_day {value}.
Arguments job_month {value}.
Arguments job_dayOfWeek {value}.
Arguments job_fn {value}.
Arguments job_args {value}.
Arguments job_tick {value}.
Arguments zero_job {value}.
Arguments day_switch {value}.
Arguments parseSchedule {value}.
Arguments set_fn_args {value}.
Arguments mkCrontab {value Ticker}.
Arguments ticker {value Ticker}.
Arguments jobs {value Ticker}.
Arguments Clear {value Ticker}.
Arguments AddJob {value rtype _ Ticker}.
Arguments check_params {value rtype _}.

(** ** MustAddJob, RunAll and the scheduled run *)

(** What [MustAddJob] does: it returns, or it panics with the error of
    [AddJob], or the panic of [AddJob] goes through. *)
Inductive must_outcome : Type :=
  | Done
  | PanicErr (e : error)
  | PanicRuntime.

(** The calls a program makes on a cron table. *)
Inductive op (value : Type) : Type :=
  | OpAddJob (schedule : string) (fn : option value) (args : list (option value))
  | OpMustAddJob (schedule : string) (fn : option value) (args : list (option value))
  | OpClear.
Arguments OpAddJob {value}.
Arguments OpMustAddJob {value}.
Arguments OpClear {value}.

Section Scheduler.

Variable value : Type.
Variable rtype : Type.
Context `{EqDecision rtype}.
Variable Ticker : Type.
Variable TypeOf : value -> rtype.
Variable KindOf : rtype -> Kind.
Variable Ins : rtype -> list rtype.
Variable Implements : rtype -> rtype -> bool.

(** [time.Time] and its accessors are taken as given. *)
Variable Time : Type.
Variable Second : Time -> Z.
Variable Minute : Time -> Z.
Variable Hour : Time -> Z.
Variable Day : Time -> Z.
Variable Month : Time -> Z.
Variable Weekday : Time -> Z.

(** [MustAddJob] is like [AddJob] but panics on an error. *)
Definition MustAddJob (fuel : nat) (c : Crontab value Ticker) (schedule : string)
    (fn : option value) (args : list (option value))
    : option (must_outcome * Crontab value Ticker) :=
  match AddJob TypeOf KindOf Ins Implements fuel c schedule fn args with
  | None => None
  | Some (Returned None, c') => Some (Done, c')
  | Some (Returned (Some err), c') => Some (PanicErr err, c')
  | Some (Panicked, c') => Some (PanicRuntime, c')
  end.

(** [getTick] returns the tick of a time. *)
Definition getTick (t : Time) : tick :=
  mkTick (Second t) (Minute t) (Hour t) (Day t) (Month t) (Weekday t).

(** The loop of [runScheduled] over the jobs: the jobs for which
    [go j.run()] is executed, in the order of the statements. *)
Fixpoint launch_due (tk : tick) (js : list (job value)) : list (job value) :=
  match js with
  | [] => []
  | j :: rest =>
      if job_tick j tk then j :: launch_due tk rest else launch_due tk rest
  end.

Definition runScheduled (c : Crontab value Ticker) (t : Time) : list (job value) :=
  let tick := getTick t in
  launch_due tick (jobs c).

(** [RunAll] launches every job of the table, scheduled or not. *)
Fixpoint launch_all (js : list (job value)) : list (job value) :=
  match js with
  | [] => []
  | j :: rest => j :: launch_all rest
  end.

Definition RunAll (c : Crontab value Ticker) : list (job value) :=
  launch_all (jobs c).

(** The table after one call, whether the call returned or panicked. *)
Definition apply_op (fuel : nat) (c : Crontab value Ticker) (o : op value)
    : option (Crontab value Ticker) :=
  match o with
  | OpAddJob schedule fn args =>
      snd <$> AddJob TypeOf KindOf Ins Implements fuel c schedule fn args
  | OpMustAddJob schedule fn args =>
      snd <$> MustAddJob fuel c schedule fn args
  | OpClear => Some (Clear c)
  end.

(** The table after a sequence of calls. *)
Fixpoint apply_ops (fuel : nat) (c : Crontab value Ticker) (os : list (op value))
    : option (Crontab value Ticker) :=
  match os with
  | [] => Some c
  | o :: rest =>
      match apply_op fuel c o with
      | Some c' => apply_ops fuel c' rest
      | None => None
      end
  end.

(** An argument that [fn] can be called with at a parameter of type [t1]:
    not nil, and of that very type or of a type that implements it. *)
Definition arg_fits (a : option value) (t1 : rtype) : Prop :=
  exists v, a = Some v /\
    (TypeOf v = t1 \/ (KindOf t1 = Interface /\ Implements (TypeOf v) t1 = true)).

(** A job whose callable is a function and whose arguments fit its
    parameters, one for one. *)
Definition job_callable (j : job value) : Prop :=
  exists f, job_fn j = Some f /\ KindOf (TypeOf f) = Func /\
    Forall2 arg_fits (job_args j) (Ins (TypeOf f)).

End Scheduler.

Arguments MustAddJob {value rtype _ Ticker}.
Arguments getTick {Time}.
Arguments launch_due {value}.
Arguments launch_all {value}.
Arguments runScheduled {value Ticker Time}.
Arguments RunAll {value Ticker}.
Arguments apply_op {value rtype _ Ticker}.
Arguments apply_ops {value rtype _ Ticker}.
Arguments arg_fits {value rtype}.
Arguments job_callable {value rtype}.

(** The bounds of the six fields, in the order of the expression. *)
Definition field_bounds : list (Z * Z) :=
  [(0, 59); (0, 59); (0, 23); (1, 31); (1, 12); (0, 6)].

(** The day test of a parsed schedule, on the sets [d] and [w] that
    [parsePart] returned for the day-of-month and the day-of-week field. *)
Definition day_rule (d w : gset Z) (day dayOfWeek : Z) : Prop :=
  if (size d <? 31)%nat && (size w =? 7)%nat then day ∈ d
  else if (size w <? 7)%nat && (size d =? 31)%nat then dayOfWeek ∈ w
  else day ∈ d \/ dayOfWeek ∈ w.

(** What a term of a list contributes: the integers of its range, or its
    one integer. *)
Definition term_covers (t : string) (x : Z) : Prop :=
  match matchRange t with
  | Some (a, b) => fst (Atoi a) <= x <= fst (Atoi b)
  | None => Atoi t = (x, true)
  end.

(** A field whose step, if it is a step term, is at least 1. *)
Definition step_positive (p : string) : Prop :=
  forall m1 m2, matchN p = Some (m1, m2) -> 1 <= fst (Atoi m2).

(** A field whose step, if it is a step term, can be added to any value of
    the calendar without overflow. *)
Definition step_fits (p : string) : Prop :=
  forall m1 m2, matchN p = Some (m1, m2) -> fst (Atoi m2) <= MaxInt - 59.

(** A term of a list that is refused: a range or an integer that leaves
    the bound, or a term that is neither. *)
Definition term_refused (t : string) (min max : Z) : Prop :=
  match matchRange t with
  | Some (a, b) => fst (Atoi a) < min \/ max < fst (Atoi b)
  | None => snd (Atoi t) = true -> fst (Atoi t) < min \/ max < fst (Atoi t)
  end.

Fixpoint no_slash (s : string) : bool :=
  match s with
  | EmptyString => true
  | String c t => negb (Ascii.eqb c "/") && no_slash t
  end.

(** A string that does not go on with a digit. *)
Definition digit_free_head (s : string) : bool :=
  match s with
  | EmptyString => true
  | String c _ => negb (is_digit c)
  end.

(** ** Auxiliary definitions for the statements *)

(** A string without newline and without slash. *)
Fixpoint plain (s : string) : bool :=
  match s with
  | EmptyString => true
  | String c t => negb (is_newline c) && negb (Ascii.eqb c "/") && plain t
  end.

Fixpoint all_space (s : string) : bool :=
  match s with
  | EmptyString => true
  | String c t => is_space c && all_space t
  end.

Fixpoint no_space (s : string) : bool :=
  match s with
  | EmptyString => true
  | String c t => negb (is_space c) && no_space t
  end.

(** A field of an expression: not empty, free of white space. *)
Definition is_field (f : string) : Prop := nonempty f = true /\ no_space f = true.

(** What separates two fields: a non-empty run of white space. *)
Definition is_gap (g : string) : Prop := nonempty g = true /\ all_space g = true.

(** The expression made of six fields, the gaps between them, and the
    white space before and after. *)
Definition padded (lead f0 s1 f1 s2 f2 s3 f3 s4 f4 s5 f5 trail : string) : string :=
  (lead ++ f0 ++ s1 ++ f1 ++ s2 ++ f2 ++ s3 ++ f3 ++ s4 ++ f4 ++ s5 ++ f5 ++ trail)%string.

(** ** The examples of the documentation *)

(** The schedule of the first day of every month at noon, as parsed. *)
Definition job_0_0_12_1 : job unit :=
  mkJob {[ 0 ]} {[ 0 ]} {[ 12 ]} {[ 1 ]}
        (list_to_set [1; 2; 3; 4; 5; 6; 7; 8; 9; 10; 11; 12]) ∅ None [].

(** The schedule of midnight on Mondays and Tuesdays, as parsed. *)
Definition job_weekdays : job unit :=
  mkJob {[ 0 ]} {[ 0 ]} {[ 0 ]} ∅
        (list_to_set [1; 2; 3; 4; 5; 6; 7; 8; 9; 10; 11; 12])
        (list_to_set [1; 2]) None [].

(** The schedule with both day fields restricted, as parsed. *)
Definition job_both_days : job unit :=
  mkJob {[ 0 ]} {[ 0 ]} {[ 0 ]} {[ 1 ]} {[ 1 ]} {[ 1 ]} None [].

(** The schedule of six wildcards, as parsed. *)
Definition job_always : job unit :=
  mkJob (list_to_set (seqZ 0 60)) (list_to_set (seqZ 0 60))
        (list_to_set (seqZ 0 24)) (list_to_set (seqZ 1 31))
        (list_to_set (seqZ 1 12)) (list_to_set (seqZ 0 7)) None [].

(** The types and values of the example of the documentation:
    [myFunc2(s string, n int)] registered with a string and a number, and a
    function of one [interface{}] parameter. *)
Inductive ex_type : Type :=
  | T_string | T_int | T_any | T_func_string_int | T_func_any.

#[global] Instance ex_type_eq_dec : EqDecision ex_type.
Proof. solve_decision. Defined.

Inductive ex_value : Type :=
  | V_string (s : string)
  | V_int (n : Z)
  | V_myFunc2
  | V_funcAny.

Definition ex_TypeOf (v : ex_value) : ex_type :=
  match v with
  | V_string _ => T_string
  | V_int _ => T_int
  | V_myFunc2 => T_func_string_int
  | V_funcAny => T_func_any
  end.

Definition ex_KindOf (t : ex_type) : Kind :=
  match t with
  | T_func_string_int | T_func_any => Func
  | T_any => Interface
  | _ => OtherKind
  end.

Definition ex_Ins (t : ex_type) : list ex_type :=
  match t with
  | T_func_string_int => [T_string; T_int]
  | T_func_any => [T_any]
  | _ => []
  end.

Definition ex_Implements (t u : ex_type) : bool :=
  match u with T_any => true | _ => false end.

Definition ex_AddJob :=
  AddJob (Ticker := unit) ex_TypeOf ex_KindOf ex_Ins ex_Implements.

Definition ex_args : list (option ex_value) :=
  [Some (V_string "Monday and Tuesday midnight"); Some (V_int 123)].

Definition ex_job : job ex_value :=
  mkJob {[ 0 ]} {[ 0 ]} {[ 0 ]} ∅
        (list_to_set [1; 2; 3; 4; 5; 6; 7; 8; 9; 10; 11; 12])
        (list_to_set [1; 2]) (Some V_myFunc2) ex_args.

Definition ex_MustAddJob :=
  MustAddJob (Ticker := unit) ex_TypeOf ex_KindOf ex_Ins ex_Implements.

(** Times given by their six components. *)
Definition ex_runScheduled :=
  runScheduled (value := ex_value) (Ticker := unit) (Time := tick)
    tick_second tick_min tick_hour tick_day tick_month tick_dayOfWeek.

Definition ex_getTick :=
  getTick (Time := tick)
    tick_second tick_min tick_hour tick_day tick_month tick_dayOfWeek.

(** A tab, and a carriage return followed by a newline. *)
Definition tab_gap : string := String "009" EmptyString.
Definition crlf_gap : string := String "013" (String "010" EmptyString).

(** Three calls on a table: a registration, a refused one that panics, and
    one that panics in the type check. *)
Definition ex_ops : list (op ex_value) :=
  [OpAddJob "0 0 0 * * 1,2" (Some V_myFunc2) ex_args;
   OpMustAddJob "* * * * *" (Some V_myFunc2) ex_args;
   OpAddJob "* * * * * *" (Some V_funcAny) [None]].

(** The job that a rejected hour leaves behind. *)
Definition job_bad_hour : job unit :=
  mkJob {[ 0 ]} {[ 0 ]} ∅ ∅ ∅ ∅ None [].

(** Case analysis on the eight bits of a byte. *)
Ltac by_ascii c :=
  destruct c as [[] [] [] [] [] [] [] []]; try discriminate; try reflexivity.

(** * Properties *)

(** ** The tick matcher *)

Lemma has_key_true (m : gset Z) (k : Z) : has_key m k = true <-> k ∈ m.
Proof. unfold has_key. apply bool_decide_eq_true. Qed.

Lemma has_key_empty (k : Z) : has_key ∅ k = false.
Proof. unfold has_key. apply bool_decide_eq_false. set_solver. Qed.

(** The conditions of [job.tick], as one equivalence. *)
Lemma job_tick_true {value : Type} (j : job value) (t : tick) :
  job_tick j t = true <->
    tick_second t ∈ job_second j /\ tick_min t ∈ job_min j /\
    tick_hour t ∈ job_hour j /\ tick_month t ∈ job_month j /\
    (tick_day t ∈ job_day j \/ tick_dayOfWeek t ∈ job_dayOfWeek j).
Proof.
  unfold job_tick. rewrite <- !has_key_true.
  destruct (has_key (job_second j) _), (has_key (job_min j) _),
    (has_key (job_hour j) _), (has_key (job_day j) _),
    (has_key (job_dayOfWeek j) _), (has_key (job_month j) _);
    simpl; intuition congruence.
Qed.

(** C1. [job.tick] is true exactly when the second, minute, hour and month
    of the tick are in the job's sets and the day of month or the day of
    week is in its set; if one of the four required sets is empty the
    result is false. *)
Theorem job_tick_spec {value : Type} (j : job value) (t : tick) :
  (job_tick j t = true <->
     tick_second t ∈ job_second j /\ tick_min t ∈ job_min j /\
     tick_hour t ∈ job_hour j /\ tick_month t ∈ job_month j /\
     (tick_day t ∈ job_day j \/ tick_dayOfWeek t ∈ job_dayOfWeek j))
  /\ (job_second j = ∅ \/ job_min j = ∅ \/ job_hour j = ∅ \/ job_month j = ∅ ->
      job_tick j t = false).
Proof.
  split; [apply job_tick_true|].
  intros Hempty. apply not_true_is_false. rewrite job_tick_true.
  intros (Hs & Hm & Hh & Hmo & _).
  destruct Hempty as [E|[E|[E|E]]]; rewrite E in *;
    [exact (not_elem_of_empty (C := gset Z) _ Hs)
    |exact (not_elem_of_empty (C := gset Z) _ Hm)
    |exact (not_elem_of_empty (C := gset Z) _ Hh)
    |exact (not_elem_of_empty (C := gset Z) _ Hmo)].
Qed.

(** ** The loop that fills a set *)

Lemma wrap_id (z : Z) : is_int z -> wrap z = z.
Proof.
  unfold is_int, MinInt, MaxInt, wrap. intros Hz.
  rewrite Z.mod_small by lia. lia.
Qed.

Lemma wrap_is_int (z : Z) : is_int (wrap z).
Proof.
  unfold is_int, MinInt, MaxInt, wrap.
  pose proof (Z.mod_pos_bound (z + 2 ^ 63) (2 ^ 64)). lia.
Qed.

(** More fuel does not change the result of a loop that has finished. *)
Lemma for_loop_mono (fuel fuel' : nat) (i hi step : Z) (r r' : gset Z) :
  for_loop fuel i hi step r = Some r' -> (fuel <= fuel')%nat ->
  for_loop fuel' i hi step r = Some r'.
Proof.
  revert fuel' i r. induction fuel as [|fuel IH]; intros fuel' i r; simpl.
  - discriminate.
  - intros Hrun Hle. destruct fuel' as [|fuel']; [lia|]. simpl.
    destruct (i <=? hi); [|exact Hrun].
    apply IH; [exact Hrun|lia].
Qed.

(** A loop whose step is zero never leaves its first iteration. *)
Lemma for_loop_step_zero (fuel : nat) (i hi : Z) (r : gset Z) :
  is_int i -> i <= hi -> for_loop fuel i hi 0 r = None.
Proof.
  intros Hint Hle. revert r. induction fuel as [|fuel IH]; intros r; simpl.
  - reflexivity.
  - apply Z.leb_le in Hle as Hb. rewrite Hb.
    rewrite Z.add_0_r, wrap_id by exact Hint. apply IH.
Qed.

(** Without overflow the loop terminates and adds the arithmetic
    progression from [i] by [n] up to [hi]. *)
Lemma for_loop_no_wrap (fuel : nat) (i hi n : Z) (r : gset Z) :
  1 <= n -> MinInt <= i -> hi + n <= MaxInt ->
  (0 < fuel)%nat -> hi - i + 1 < Z.of_nat fuel ->
  exists r', for_loop fuel i hi n r = Some r' /\
    forall x, x ∈ r' <-> x ∈ r \/ (i <= x <= hi /\ (n | x - i)).
Proof.
  intros Hn. revert i r.
  induction fuel as [|fuel IH]; intros i r Hlo Hhi Hpos Hfuel; simpl; [lia|].
  destruct (Z.leb_spec i hi) as [Hle|Hgt].
  - rewrite wrap_id by (unfold is_int; lia).
    destruct (IH (i + n) ({[ i ]} ∪ r)) as (r' & Hrun & Hmem); [lia..|].
    exists r'. split; [exact Hrun|]. intros x. rewrite Hmem.
    rewrite elem_of_union, elem_of_singleton. split.
    + intros [[->|Hx]|[Hx [k Hk]]].
      * right. split; [lia|]. exists 0. lia.
      * left. exact Hx.
      * right. split; [lia|]. exists (k + 1). lia.
    + intros [Hx|[Hx [k Hk]]]; [left; right; exact Hx|].
      destruct (Z.eq_dec k 0) as [->|Hk0]; [left; left; lia|].
      right. split; [nia|]. exists (k - 1). lia.
  - exists r. split; [reflexivity|]. intros x. split; [auto|].
    intros [Hx|[Hx _]]; [exact Hx|lia].
Qed.

(** Without overflow every member the loop adds lies between its bounds. *)
Lemma for_loop_bounds (fuel : nat) (i hi n : Z) (r r' : gset Z) :
  0 <= n -> MinInt <= i -> hi + n <= MaxInt ->
  for_loop fuel i hi n r = Some r' ->
  forall x, x ∈ r' -> x ∈ r \/ i <= x <= hi.
Proof.
  intros Hn. revert i r.
  induction fuel as [|fuel IH]; intros i r Hlo Hhi; simpl; [discriminate|].
  destruct (Z.leb_spec i hi) as [Hle|Hgt].
  - rewrite wrap_id by (unfold is_int; lia). intros Hrun x Hx.
    apply (IH (i + n) ({[ i ]} ∪ r)) in Hx; [|lia..|exact Hrun].
    rewrite elem_of_union, elem_of_singleton in Hx.
    destruct Hx as [[->|Hx]|Hx]; [right; lia|left; exact Hx|right; lia].
  - intros [= <-] x Hx. left. exact Hx.
Qed.

(** The loop only adds members. *)
Lemma for_loop_grows (fuel : nat) (i hi n : Z) (r r' : gset Z) :
  for_loop fuel i hi n r = Some r' -> r ⊆ r'.
Proof.
  revert i r. induction fuel as [|fuel IH]; intros i r; simpl; [discriminate|].
  destruct (i <=? hi).
  - intros Hrun. apply IH in Hrun. set_solver.
  - intros [= <-]. reflexivity.
Qed.

(** The same, with one result for every sufficient fuel. *)
Lemma for_loop_progression (i hi n : Z) (r : gset Z) :
  1 <= n -> MinInt <= i -> hi + n <= MaxInt ->
  exists r',
    (forall fuel, (0 < fuel)%nat -> hi - i + 1 < Z.of_nat fuel ->
       for_loop fuel i hi n r = Some r') /\
    (forall x, x ∈ r' <-> x ∈ r \/ (i <= x <= hi /\ (n | x - i))).
Proof.
  intros Hn Hlo Hhi.
  destruct (for_loop_no_wrap (S (Z.to_nat (hi - i + 1))) i hi n r)
    as (r' & Hrun & Hmem); [lia..|].
  exists r'. split; [|exact Hmem].
  intros fuel Hpos Hfuel.
  destruct (for_loop_no_wrap fuel i hi n r) as (r2 & Hrun2 & _); [lia..|].
  rewrite Hrun2. f_equal.
  destruct (Nat.le_ge_cases fuel (S (Z.to_nat (hi - i + 1)))) as [Hle|Hle].
  - apply (for_loop_mono _ _ _ _ _ _ _ Hrun2) in Hle. congruence.
  - apply (for_loop_mono _ _ _ _ _ _ _ Hrun) in Hle. congruence.
Qed.

(** The first value of a loop that runs at all is in its result. *)
Lemma for_loop_first (fuel : nat) (i hi n : Z) (r r' : gset Z) :
  i <= hi -> for_loop fuel i hi n r = Some r' -> i ∈ r'.
Proof.
  intros Hle. destruct fuel as [|fuel]; simpl; [discriminate|].
  apply Z.leb_le in Hle. rewrite Hle. intros Hrun.
  apply for_loop_grows in Hrun. set_solver.
Qed.

(** ** The regular expressions on well-formed fields *)

Lemma digit_slash_digits (c : ascii) (t : string) :
  is_digit c = true -> slash_digits (String c t) = None.
Proof. by_ascii c. Qed.

Lemma digit_not_newline (c : ascii) : is_digit c = true -> is_newline c = false.
Proof. by_ascii c. Qed.

Lemma span_digits_all (d : string) :
  all_digits d = true -> span_digits d = (d, EmptyString).
Proof.
  induction d as [|c d IH]; simpl; [reflexivity|].
  intros [Hc Hd]%andb_prop. rewrite Hc, (IH Hd). reflexivity.
Qed.

Lemma matchN_here_digits (d : string) :
  all_digits d = true -> matchN_here d = None.
Proof.
  induction d as [|c d IH]; [reflexivity|].
  intros [Hc Hd]%andb_prop.
  cbn [matchN_here]. rewrite (IH Hd), (digit_slash_digits _ _ Hc).
  destruct (is_newline c); reflexivity.
Qed.

Lemma slash_digits_all (d : string) :
  all_digits d = true -> nonempty d = true ->
  slash_digits (String "/" d) = Some d.
Proof.
  intros Hd Hne. cbn [slash_digits]. rewrite (span_digits_all _ Hd), Hne.
  reflexivity.
Qed.

Lemma matchN_here_step (base d : string) :
  plain base = true -> all_digits d = true -> nonempty d = true ->
  matchN_here (base ++ String "/" d) = Some (base, d).
Proof.
  intros Hb Hd Hne. induction base as [|c base IH].
  - change (EmptyString ++ String "/" d)%string with (String "/" d).
    cbn [matchN_here]. rewrite (matchN_here_digits _ Hd), (slash_digits_all _ Hd Hne).
    reflexivity.
  - simpl in Hb. apply andb_prop in Hb as [[Hnl _]%andb_prop Hb].
    change (String c base ++ String "/" d)%string
      with (String c (base ++ String "/" d)).
    cbn [matchN_here]. rewrite (IH Hb).
    apply negb_true_iff in Hnl. rewrite Hnl. reflexivity.
Qed.

Lemma matchN_step (base d : string) :
  plain base = true -> all_digits d = true -> nonempty d = true ->
  matchN (base ++ String "/" d) = Some (base, d).
Proof.
  intros Hb Hd Hne.
  destruct (base ++ String "/" d)%string eqn:E; cbn [matchN];
    rewrite <- E, (matchN_here_step _ _ Hb Hd Hne); reflexivity.
Qed.

Lemma decimal_ge (d : string) (acc : Z) :
  all_digits d = true -> 0 <= acc -> acc <= decimal acc d.
Proof.
  revert acc. induction d as [|c d IH]; intros acc; simpl; [lia|].
  intros [Hc Hd]%andb_prop Hacc.
  assert (0 <= digit_val c).
  { unfold is_digit in Hc. unfold digit_val.
    apply andb_prop in Hc as [Hc _]. apply N.leb_le in Hc. lia. }
  specialize (IH (acc * 10 + digit_val c) Hd). lia.
Qed.

Lemma Atoi_digits (d : string) :
  all_digits d = true -> nonempty d = true ->
  Atoi d = if decimal 0 d >=? 2 ^ 63 then (MaxInt, false) else (decimal 0 d, true).
Proof.
  intros Hd Hne. unfold Atoi.
  destruct d as [|c t]; [discriminate|].
  assert (Hc : is_digit c = true) by (simpl in Hd; apply andb_prop in Hd; tauto).
  replace (match String c t with
           | String "-" t0 => (true, t0)
           | String "+" t0 => (false, t0)
           | _ => (false, String c t)
           end) with (false, String c t) by (by_ascii c).
  rewrite Hd. reflexivity.
Qed.

Lemma Atoi_digits_fst (d : string) :
  all_digits d = true -> nonempty d = true -> decimal 0 d <= MaxInt ->
  fst (Atoi d) = decimal 0 d.
Proof.
  intros Hd Hne Hle. rewrite (Atoi_digits _ Hd Hne).
  destruct (Z.geb_spec (decimal 0 d) (2 ^ 63)) as [Hge|Hlt]; [|reflexivity].
  unfold MaxInt in Hle. lia.
Qed.

(** ** Step terms *)

(** A step term whose base is the wildcard runs the loop over the whole
    bound, with the step that [Atoi] reads. *)
Lemma parsePart_star_step (fuel : nat) (d : string) (min max : Z) :
  all_digits d = true -> nonempty d = true ->
  parsePart fuel (String "*" (String "/" d)) min max
  = Ok <$> for_loop fuel min max (fst (Atoi d)) ∅.
Proof.
  intros Hd Hne. unfold parsePart.
  change (String "*" (String "/" d)) with ("*" ++ String "/" d)%string.
  rewrite (matchN_step "*" d eq_refl Hd Hne). reflexivity.
Qed.

(** So does a step term whose base is empty. *)
Lemma parsePart_empty_step (fuel : nat) (d : string) (min max : Z) :
  all_digits d = true -> nonempty d = true ->
  parsePart fuel (String "/" d) min max
  = Ok <$> for_loop fuel min max (fst (Atoi d)) ∅.
Proof.
  intros Hd Hne. unfold parsePart.
  change (String "/" d) with (EmptyString ++ String "/" d)%string.
  rewrite (matchN_step EmptyString d eq_refl Hd Hne). reflexivity.
Qed.

Lemma append_cons (x : ascii) (a b : string) :
  (String x a ++ b)%string = String x (a ++ b).
Proof. reflexivity. Qed.

Lemma append_assoc (a b c : string) : ((a ++ b) ++ c = a ++ (b ++ c))%string.
Proof.
  induction a as [|x a IH]; [reflexivity|].
  rewrite !append_cons. f_equal. exact IH.
Qed.

Lemma span_digits_dash (a b : string) :
  all_digits a = true ->
  span_digits (a ++ String "-" b) = (a, String "-" b).
Proof.
  induction a as [|c a IH]; [reflexivity|].
  rewrite append_cons. simpl.
  intros [Hc Ha]%andb_prop. rewrite Hc, (IH Ha). reflexivity.
Qed.

Lemma matchRange_range (a b : string) :
  all_digits a = true -> nonempty a = true ->
  all_digits b = true -> nonempty b = true ->
  matchRange (a ++ String "-" b) = Some (a, b).
Proof.
  intros Ha Hna Hb Hnb. unfold matchRange.
  rewrite (span_digits_dash _ _ Ha), Hna, Hnb, Hb. reflexivity.
Qed.

Lemma digit_plain (c : ascii) :
  is_digit c = true -> negb (is_newline c) && negb (Ascii.eqb c "/") = true.
Proof. by_ascii c. Qed.

Lemma plain_range (a b : string) :
  all_digits a = true -> all_digits b = true ->
  plain (a ++ String "-" b) = true.
Proof.
  intros Ha Hb.
  assert (Hpb : plain b = true).
  { induction b as [|c b IH]; simpl; [reflexivity|].
    simpl in Hb. apply andb_prop in Hb as [Hc Hb].
    rewrite (digit_plain _ Hc), (IH Hb). reflexivity. }
  induction a as [|c a IH]; [exact Hpb|].
  rewrite append_cons. simpl.
  simpl in Ha. apply andb_prop in Ha as [Hc Ha].
  rewrite (digit_plain _ Hc), (IH Ha). reflexivity.
Qed.

Lemma digit_head_not_star (a rest : string) :
  all_digits a = true -> nonempty a = true ->
  String.eqb (a ++ rest) "*" = false /\ nonempty (a ++ rest) = true.
Proof.
  intros Ha Hna. destruct a as [|c a]; [discriminate|].
  simpl in Ha. apply andb_prop in Ha as [Hc _].
  split; [|reflexivity]. rewrite append_cons. simpl. by_ascii c.
Qed.

(** A step term whose base is a range: the range is checked against the
    bound, then the loop runs over the range. *)
Lemma parsePart_range_step (fuel : nat) (a b d : string) (min max : Z) :
  all_digits a = true -> nonempty a = true ->
  all_digits b = true -> nonempty b = true ->
  all_digits d = true -> nonempty d = true ->
  let s := ((a ++ String "-" b) ++ String "/" d)%string in
  parsePart fuel s min max
  = if (fst (Atoi a) <? min) || (fst (Atoi b) >? max)
    then Some (Err (ErrOutOfRange a s min max))
    else Ok <$> for_loop fuel (fst (Atoi a)) (fst (Atoi b)) (fst (Atoi d)) ∅.
Proof.
  intros Ha Hna Hb Hnb Hd Hnd s. unfold parsePart.
  destruct (digit_head_not_star a (String "-" b ++ String "/" d) Ha Hna) as [Hs _].
  destruct (digit_head_not_star a (String "-" b) Ha Hna) as [Hm Hnm].
  replace (String.eqb s "*") with false
    by (subst s; rewrite append_assoc; symmetry; exact Hs).
  subst s. rewrite (matchN_step _ d (plain_range _ _ Ha Hb) Hd Hnd).
  rewrite Hnm, Hm, (matchRange_range _ _ Ha Hna Hb Hnb). simpl.
  destruct ((fst (Atoi a) <? min) || (fst (Atoi b) >? max)); reflexivity.
Qed.

(** X2. With a step that is positive and does not carry the counter past
    the largest [int], a wildcard step term returns the progression from
    [min] by the step, up to [max]. *)
Theorem parsePart_star_step_spec (d : string) (min max : Z) :
  all_digits d = true -> nonempty d = true ->
  1 <= decimal 0 d <= MaxInt -> MinInt <= min -> max + decimal 0 d <= MaxInt ->
  exists r,
    (forall fuel, (0 < fuel)%nat -> max - min + 1 < Z.of_nat fuel ->
       parsePart fuel (String "*" (String "/" d)) min max = Some (Ok r)) /\
    (forall x, x ∈ r <-> min <= x <= max /\ (decimal 0 d | x - min)).
Proof.
  intros Hd Hne [Hn1 Hn2] Hmin Hmax.
  destruct (for_loop_progression min max (decimal 0 d) ∅) as (r & Hrun & Hmem);
    [lia..|].
  exists r. split.
  - intros fuel Hpos Hfuel. rewrite (parsePart_star_step _ _ _ _ Hd Hne).
    rewrite (Atoi_digits_fst _ Hd Hne Hn2), (Hrun fuel Hpos Hfuel). reflexivity.
  - intros x. rewrite Hmem, elem_of_empty. tauto.
Qed.

(** X3. The same for a base that is a range: the term is rejected exactly
    when the range leaves the bound, and otherwise returns the progression
    from the low end by the step, up to the high end. *)
Theorem parsePart_range_step_spec (a b d : string) (min max : Z) :
  all_digits a = true -> nonempty a = true ->
  all_digits b = true -> nonempty b = true ->
  all_digits d = true -> nonempty d = true ->
  decimal 0 a <= MaxInt -> decimal 0 b <= MaxInt ->
  1 <= decimal 0 d <= MaxInt -> max + decimal 0 d <= MaxInt ->
  let s := ((a ++ String "-" b) ++ String "/" d)%string in
  (decimal 0 a < min \/ max < decimal 0 b ->
     forall fuel, parsePart fuel s min max = Some (Err (ErrOutOfRange a s min max))) /\
  (min <= decimal 0 a /\ decimal 0 b <= max ->
     exists r,
       (forall fuel, (0 < fuel)%nat -> max - min + 1 < Z.of_nat fuel ->
          parsePart fuel s min max = Some (Ok r)) /\
       (forall x, x ∈ r <->
          decimal 0 a <= x <= decimal 0 b /\ (decimal 0 d | x - decimal 0 a))).
Proof.
  intros Ha Hna Hb Hnb Hd Hnd Hamax Hbmax [Hn1 Hn2] Hmax s.
  pose proof (parsePart_range_step) as Hstep.
  specialize (fun fuel => Hstep fuel a b d min max Ha Hna Hb Hnb Hd Hnd).
  cbv zeta in Hstep. fold s in Hstep.
  rewrite (Atoi_digits_fst _ Ha Hna Hamax), (Atoi_digits_fst _ Hb Hnb Hbmax),
    (Atoi_digits_fst _ Hd Hnd Hn2) in Hstep.
  pose proof (decimal_ge a 0 Ha ltac:(lia)) as Ha0.
  split.
  - intros Hout fuel. rewrite Hstep.
    replace ((decimal 0 a <? min) || (decimal 0 b >? max)) with true; [reflexivity|].
    symmetry. apply orb_true_iff. rewrite Z.ltb_lt, Z.gtb_gt. lia.
  - intros [Hlo Hhi].
    destruct (for_loop_progression (decimal 0 a) (decimal 0 b) (decimal 0 d) ∅)
      as (r & Hrun & Hmem); [unfold MinInt; lia..|].
    exists r. split.
    + intros fuel Hpos Hfuel. rewrite Hstep.
      replace ((decimal 0 a <? min) || (decimal 0 b >? max)) with false.
      * rewrite (Hrun fuel Hpos); [reflexivity|lia].
      * symmetry. apply orb_false_iff. rewrite Z.ltb_ge, Z.gtb_ltb, Z.ltb_ge. lia.
    + intros x. rewrite Hmem, elem_of_empty. tauto.
Qed.

(** X4. A step term with an empty base is parsed exactly as the one with
    the wildcard base, for every step and every bound. *)
Theorem parsePart_empty_base_as_wildcard (fuel : nat) (d : string) (min max : Z) :
  all_digits d = true -> nonempty d = true ->
  parsePart fuel (String "/" d) min max
  = parsePart fuel (String "*" (String "/" d)) min max.
Proof.
  intros Hd Hne.
  rewrite (parsePart_empty_step _ _ _ _ Hd Hne), (parsePart_star_step _ _ _ _ Hd Hne).
  reflexivity.
Qed.

(** X1. The wildcard returns every integer of the bound and nothing else. *)
Theorem parsePart_wildcard (min max : Z) :
  MinInt <= min -> max < MaxInt ->
  exists r,
    (forall fuel, (0 < fuel)%nat -> max - min + 1 < Z.of_nat fuel ->
       parsePart fuel "*" min max = Some (Ok r)) /\
    (forall x, x ∈ r <-> min <= x <= max).
Proof.
  intros Hmin Hmax.
  destruct (for_loop_progression min max 1 ∅) as (r & Hrun & Hmem); [lia..|].
  exists r. split.
  - intros fuel Hpos Hfuel. unfold parsePart. simpl String.eqb. cbv iota.
    rewrite (Hrun fuel Hpos Hfuel). reflexivity.
  - intros x. rewrite Hmem, elem_of_empty.
    split; [intros [[]|[Hx _]]; exact Hx|].
    intros Hx. right. split; [exact Hx|]. apply Z.divide_1_l.
Qed.

(** A step of zero over a non-empty bound: the loop never ends, whatever
    the fuel. *)
Lemma parsePart_step_zero (fuel : nat) (min max : Z) :
  is_int min -> min <= max -> parsePart fuel "*/0" min max = None.
Proof.
  intros Hint Hle. rewrite parsePart_star_step by reflexivity.
  change (fst (Atoi "0")) with 0.
  rewrite (for_loop_step_zero _ _ _ _ Hint Hle). reflexivity.
Qed.

(** ** Bounds, emptiness and termination away from overflow *)

Lemma span_digits_digits (s : string) : all_digits (fst (span_digits s)) = true.
Proof.
  induction s as [|c s IH]; simpl; [reflexivity|].
  destruct (is_digit c) eqn:Hc; [|reflexivity].
  destruct (span_digits s) as [d rest]. simpl in IH |- *. rewrite Hc. exact IH.
Qed.

Lemma slash_digits_digits (s d : string) :
  slash_digits s = Some d -> all_digits d = true /\ nonempty d = true.
Proof.
  unfold slash_digits. destruct s as [|c t]; [discriminate|].
  destruct (Ascii.eqb_spec c "/") as [->|Hne]; [|by_ascii c; contradiction].
  pose proof (span_digits_digits t) as Hd.
  destruct (span_digits t) as [d' rest]. simpl in Hd.
  destruct (nonempty d') eqn:Hne; [|discriminate].
  intros [= <-]. split; assumption.
Qed.

Lemma matchN_here_digits_group (s m1 m2 : string) :
  matchN_here s = Some (m1, m2) -> all_digits m2 = true /\ nonempty m2 = true.
Proof.
  revert m1. induction s as [|c s IH]; intros m1; [discriminate|].
  cbn [matchN_here].
  assert (Hshort : forall m, (fun d => (EmptyString, d)) <$> slash_digits (String c s)
                             = Some (m, m2) ->
                             all_digits m2 = true /\ nonempty m2 = true).
  { intros m. destruct (slash_digits (String c s)) as [d|] eqn:Hsd; [|discriminate].
    intros [= _ <-]. exact (slash_digits_digits _ _ Hsd). }
  destruct (is_newline c); [apply Hshort|].
  destruct (matchN_here s) as [[g1 g2]|]; [|apply Hshort].
  intros [= _ <-]. exact (IH g1 eq_refl).
Qed.

(** The second group of a match of [matchN] is a non-empty string of
    digits. *)
Lemma matchN_digits (s m1 m2 : string) :
  matchN s = Some (m1, m2) -> all_digits m2 = true /\ nonempty m2 = true.
Proof.
  induction s as [|c s IH]; cbn [matchN].
  - simpl. discriminate.
  - destruct (matchN_here (String c s)) as [[g1 g2]|] eqn:Hhere.
    + intros [= -> ->]. exact (matchN_here_digits_group _ _ _ Hhere).
    + exact IH.
Qed.

Lemma Atoi_digits_nonneg (d : string) :
  all_digits d = true -> nonempty d = true -> 0 <= fst (Atoi d).
Proof.
  intros Hd Hne. rewrite (Atoi_digits _ Hd Hne).
  pose proof (decimal_ge d 0 Hd ltac:(lia)).
  destruct (decimal 0 d >=? 2 ^ 63); simpl; [unfold MaxInt|]; lia.
Qed.

Lemma parse_terms_bounds (fuel : nat) (parts : list string) (s : string)
    (min max : Z) (r r' : gset Z) :
  MinInt <= min -> max < MaxInt ->
  (forall x, x ∈ r -> min <= x <= max) ->
  parse_terms fuel parts s min max r = Some (Ok r') ->
  forall x, x ∈ r' -> min <= x <= max.
Proof.
  intros Hmin Hmax. revert r.
  induction parts as [|p parts IH]; intros r Hr; cbn [parse_terms].
  - destruct (Z.of_nat (size r) =? 0); [discriminate|]. intros [= <-]. exact Hr.
  - destruct (matchRange p) as [[a b]|].
    + destruct (Z.ltb_spec (fst (Atoi a)) min) as [?|Hlo]; [discriminate|].
      destruct (Z.gtb_spec (fst (Atoi b)) max) as [?|Hhi]; [discriminate|].
      cbn [orb].
      destruct (for_loop fuel (fst (Atoi a)) (fst (Atoi b)) 1 r) as [r1|] eqn:Hrun;
        [|discriminate].
      apply IH. intros x Hx.
      eapply for_loop_bounds in Hx; [|idtac..|exact Hrun]; [|lia..].
      destruct Hx as [Hin|Hin]; [exact (Hr x Hin)|lia].
    + destruct (Atoi p) as [i [|]]; [|discriminate].
      destruct (Z.ltb_spec i min) as [?|Hlo]; [discriminate|].
      destruct (Z.gtb_spec i max) as [?|Hhi]; [discriminate|].
      cbn [orb]. apply IH. intros x [->%elem_of_singleton|Hx]%elem_of_union;
        [lia|exact (Hr x Hx)].
Qed.

(** Away from overflow the members of a returned set lie in the bound. *)
Lemma parsePart_in_bound (fuel : nat) (s : string) (min max : Z)
    (r : gset Z) :
  MinInt <= min -> max < MaxInt ->
  (forall m1 m2, matchN s = Some (m1, m2) -> max + fst (Atoi m2) <= MaxInt) ->
  parsePart fuel s min max = Some (Ok r) ->
  forall x, x ∈ r -> min <= x <= max.
Proof.
  intros Hmin Hmax Hstep. unfold parsePart.
  destruct (String.eqb s "*").
  - destruct (for_loop fuel min max 1 ∅) as [r1|] eqn:Hrun; [|discriminate].
    intros [= <-] x Hx.
    eapply for_loop_bounds in Hx; [|idtac..|exact Hrun]; [|lia..].
    destruct Hx as [Hin|Hin]; [set_solver|exact Hin].
  - destruct (matchN s) as [[m1 m2]|] eqn:Hm.
    + specialize (Hstep m1 m2 eq_refl).
      destruct (matchN_digits _ _ _ Hm) as [Hd Hne].
      pose proof (Atoi_digits_nonneg _ Hd Hne) as Hn.
      assert (Hloop : forall lo hi, min <= lo -> hi <= max ->
        Ok <$> for_loop fuel lo hi (fst (Atoi m2)) ∅ = Some (Ok r) ->
        forall x, x ∈ r -> min <= x <= max).
      { intros lo hi Hlo Hhi.
        destruct (for_loop fuel lo hi (fst (Atoi m2)) ∅) as [r1|] eqn:Hrun;
          [|discriminate].
        intros [= <-] x Hx.
        eapply for_loop_bounds in Hx; [|idtac..|exact Hrun]; [|lia..].
        destruct Hx as [Hin|Hin]; [set_solver|lia]. }
      destruct (nonempty m1 && negb (String.eqb m1 "*")).
      * destruct (matchRange m1) as [[a b]|]; [|discriminate].
        destruct (Z.ltb_spec (fst (Atoi a)) min) as [?|Hlo]; [discriminate|].
        destruct (Z.gtb_spec (fst (Atoi b)) max) as [?|Hhi]; [discriminate|].
        cbn [orb]. apply Hloop; lia.
      * apply Hloop; lia.
    + apply parse_terms_bounds; [exact Hmin|exact Hmax|set_solver].
Qed.

(** X5. When no addition overflows, every member of a returned field set
    lies in the bound, whichever branch produced it. *)
Theorem parsePart_members_in_bound (fuel : nat) (s : string) (min max : Z)
    (r : gset Z) :
  MinInt <= min -> max < MaxInt ->
  (forall m1 m2, matchN s = Some (m1, m2) -> max + fst (Atoi m2) <= MaxInt) ->
  parsePart fuel s min max = Some (Ok r) ->
  forall x, x ∈ r -> min <= x <= max.
Proof. exact (parsePart_in_bound fuel s min max r). Qed.

Lemma parse_terms_nonempty (fuel : nat) (parts : list string) (s : string)
    (min max : Z) (r r' : gset Z) :
  parse_terms fuel parts s min max r = Some (Ok r') -> r' <> ∅.
Proof.
  revert r. induction parts as [|p parts IH]; intros r; cbn [parse_terms].
  - destruct (Z.eqb_spec (Z.of_nat (size r)) 0) as [?|Hsize]; [discriminate|].
    intros [= <-] ->. apply Hsize. rewrite size_empty. reflexivity.
  - destruct (matchRange p) as [[a b]|].
    + destruct ((fst (Atoi a) <? min) || (fst (Atoi b) >? max)); [discriminate|].
      destruct (for_loop fuel _ _ 1 r) as [r1|]; [apply IH|discriminate].
    + destruct (Atoi p) as [i [|]]; [|discriminate].
      destruct ((i <? min) || (i >? max)); [discriminate|apply IH].
Qed.

(** X6. Away from the step branch a returned field set is never empty. *)
Theorem parsePart_list_nonempty (fuel : nat) (s : string) (min max : Z)
    (r : gset Z) :
  matchN s = None -> min <= max ->
  parsePart fuel s min max = Some (Ok r) -> r <> ∅.
Proof.
  intros Hm Hle. unfold parsePart. rewrite Hm.
  destruct (String.eqb s "*").
  - destruct (for_loop fuel min max 1 ∅) as [r1|] eqn:Hrun; [|discriminate].
    intros [= <-] ->. apply (for_loop_first _ _ _ _ _ _ Hle) in Hrun. set_solver.
  - apply parse_terms_nonempty.
Qed.

Lemma parse_terms_terminates (fuel : nat) (parts : list string) (s : string)
    (min max : Z) (r : gset Z) :
  MinInt <= min -> max < MaxInt ->
  (0 < fuel)%nat -> max - min + 1 < Z.of_nat fuel ->
  exists res, parse_terms fuel parts s min max r = Some res.
Proof.
  intros Hmin Hmax Hpos Hfuel. revert r.
  induction parts as [|p parts IH]; intros r; cbn [parse_terms].
  - destruct (Z.of_nat (size r) =? 0); eauto.
  - destruct (matchRange p) as [[a b]|].
    + destruct (Z.ltb_spec (fst (Atoi a)) min) as [?|Hlo]; [eauto|].
      destruct (Z.gtb_spec (fst (Atoi b)) max) as [?|Hhi]; [eauto|].
      cbn [orb].
      destruct (for_loop_no_wrap fuel (fst (Atoi a)) (fst (Atoi b)) 1 r)
        as (r1 & -> & _); [lia..|]. apply IH.
    + destruct (Atoi p) as [i [|]]; [|eauto].
      destruct ((i <? min) || (i >? max)); [eauto|apply IH].
Qed.

(** Away from overflow and from a step of zero, [parsePart] returns. *)
Lemma parsePart_returns (fuel : nat) (s : string) (min max : Z) :
  MinInt <= min -> max < MaxInt ->
  (forall m1 m2, matchN s = Some (m1, m2) ->
     1 <= fst (Atoi m2) /\ max + fst (Atoi m2) <= MaxInt) ->
  (0 < fuel)%nat -> max - min + 1 < Z.of_nat fuel ->
  exists res, parsePart fuel s min max = Some res.
Proof.
  intros Hmin Hmax Hstep Hpos Hfuel. unfold parsePart.
  destruct (String.eqb s "*").
  - destruct (for_loop_no_wrap fuel min max 1 ∅) as (r & -> & _); [lia..|].
    simpl. eauto.
  - destruct (matchN s) as [[m1 m2]|] eqn:Hm.
    + destruct (Hstep m1 m2 eq_refl) as [Hn1 Hn2].
      assert (Hloop : forall lo hi, min <= lo -> hi <= max ->
        exists res, Ok <$> for_loop fuel lo hi (fst (Atoi m2)) ∅ = Some res).
      { intros lo hi Hlo Hhi.
        destruct (for_loop_no_wrap fuel lo hi (fst (Atoi m2)) ∅)
          as (r & -> & _); [lia..|]. simpl. eauto. }
      destruct (nonempty m1 && negb (String.eqb m1 "*")).
      * destruct (matchRange m1) as [[a b]|]; [|eauto].
        destruct (Z.ltb_spec (fst (Atoi a)) min) as [?|Hlo]; [eauto|].
        destruct (Z.gtb_spec (fst (Atoi b)) max) as [?|Hhi]; [eauto|].
        cbn [orb]. apply Hloop; lia.
      * apply Hloop; lia.
    + apply parse_terms_terminates; assumption.
Qed.

(** X7. When the step of a step term is positive and no addition
    overflows, [parsePart] returns, with any fuel above the width of the
    bound. *)
Theorem parsePart_terminates (fuel : nat) (s : string) (min max : Z) :
  MinInt <= min -> max < MaxInt ->
  (forall m1 m2, matchN s = Some (m1, m2) ->
     1 <= fst (Atoi m2) /\ max + fst (Atoi m2) <= MaxInt) ->
  (0 < fuel)%nat -> max - min + 1 < Z.of_nat fuel ->
  exists res, parsePart fuel s min max = Some res.
Proof. exact (parsePart_returns fuel s min max). Qed.

Lemma parse_terms_mono (fuel fuel' : nat) (parts : list string) (s : string)
    (min max : Z) (r : gset Z) (res : result (gset Z)) :
  parse_terms fuel parts s min max r = Some res -> (fuel <= fuel')%nat ->
  parse_terms fuel' parts s min max r = Some res.
Proof.
  intros Hrun Hle. revert r Hrun.
  induction parts as [|p parts IH]; intros r; cbn [parse_terms]; [auto|].
  destruct (matchRange p) as [[a b]|]; [|destruct (Atoi p) as [i [|]]; [|auto]].
  - destruct ((fst (Atoi a) <? min) || (fst (Atoi b) >? max)); [auto|].
    destruct (for_loop fuel _ _ 1 r) as [r1|] eqn:Hloop; [|discriminate].
    rewrite (for_loop_mono _ _ _ _ _ _ _ Hloop Hle). apply IH.
  - destruct ((i <? min) || (i >? max)); [auto|apply IH].
Qed.

(** Fuel only bounds the number of iterations: once [parsePart] has
    returned with some fuel, it returns the same with any larger fuel. *)
Lemma parsePart_mono (fuel fuel' : nat) (s : string) (min max : Z)
    (res : result (gset Z)) :
  parsePart fuel s min max = Some res -> (fuel <= fuel')%nat ->
  parsePart fuel' s min max = Some res.
Proof.
  intros Hrun Hle. unfold parsePart in *.
  assert (Hloop : forall lo hi n,
    Ok <$> for_loop fuel lo hi n ∅ = Some res ->
    Ok <$> for_loop fuel' lo hi n ∅ = Some res).
  { intros lo hi n. destruct (for_loop fuel lo hi n ∅) as [r|] eqn:Hl; [|discriminate].
    rewrite (for_loop_mono _ _ _ _ _ _ _ Hl Hle). auto. }
  destruct (String.eqb s "*"); [apply Hloop; exact Hrun|].
  destruct (matchN s) as [[m1 m2]|].
  - destruct (if nonempty m1 && negb (String.eqb m1 "*") then _ else _)
      as [[lo hi]|e]; [apply Hloop; exact Hrun|exact Hrun].
  - exact (parse_terms_mono _ _ _ _ _ _ _ _ Hrun Hle).
Qed.

(** ** The claims on [parsePart] that the code does not meet *)

(** C3. The claim says that a field set returned by [parsePart] is never
    empty. The step branch returns before the emptiness test of the list
    branch: on the seconds field the term 5-3/1 yields the empty set with a
    nil error, where the list term 5-3 is rejected. *)
Theorem parsePart_step_returns_empty_set :
  forall fuel : nat,
    parsePart (S fuel) "5-3/1" 0 59 = Some (Ok ∅) /\
    parsePart (S fuel) "5-3" 0 59 = Some (Err (ErrUnableToParse "5-3")).
Proof. intros fuel. split; reflexivity. Qed.

(** C4. The claim says that [parsePart] terminates on every input, also
    for a step of zero. On the seconds field the term */0 makes the loop
    [for i := 0; i <= 59; i += 0] run forever: no amount of fuel gives a
    result. *)
Theorem parsePart_step_zero_never_returns :
  forall fuel : nat, parsePart fuel "*/0" 0 59 = None.
Proof.
  intros fuel. apply parsePart_step_zero; [|lia].
  unfold is_int, MinInt, MaxInt. lia.
Qed.

(** C5. The claim says that a step term yields the values low, low+step,
    ... up to the high bound. On the day-of-month field the step
    9223372036854775807 makes [i += n] wrap around: the result holds the
    smallest [int] and -1 besides 1, where the progression is 1 alone. *)
Theorem parsePart_step_wraps_around :
  forall fuel : nat,
    parsePart (4 + fuel) "*/9223372036854775807" 1 31
    = Some (Ok (list_to_set [1; MinInt; -1])) /\
    (list_to_set [1; MinInt; -1] : gset Z) <> {[ 1 ]}.
Proof.
  intros fuel. split.
  - rewrite parsePart_star_step by reflexivity.
    rewrite (for_loop_mono 4 (4 + fuel) 1 31 _ ∅ (list_to_set [1; MinInt; -1]));
      [reflexivity| |lia].
    vm_compute. reflexivity.
  - intros Heq. assert (Hin : -1 ∈ (list_to_set [1; MinInt; -1] : gset Z))
      by (vm_compute; reflexivity).
    rewrite Heq in Hin. apply elem_of_singleton in Hin. discriminate.
Qed.

(** C6. The claim says that every member of a returned field set lies in
    [min,max]. On the month field the term 1-12/9223372036854775807 passes
    the range check and the wrapped counter puts -1 into the set. *)
Theorem parsePart_member_outside_bound :
  exists r : gset Z,
    parsePart 4 "1-12/9223372036854775807" 1 12 = Some (Ok r) /\
    -1 ∈ r /\ ~ (1 <= -1 <= 12).
Proof.
  exists (list_to_set [1; MinInt; -1]). split; [|split].
  - vm_compute. reflexivity.
  - vm_compute. reflexivity.
  - lia.
Qed.

(** C9. The claim says that for every step n the term /n is read as */n
    and yields the progression from [min]. The empty base is indeed read
    as the wildcard, but for the step 0 both run the loop forever: on the
    seconds field /0 never returns a set. *)
Theorem parsePart_empty_base_step_zero_never_returns :
  forall fuel : nat,
    parsePart fuel "/0" 0 59 = parsePart fuel "*/0" 0 59 /\
    parsePart fuel "/0" 0 59 = None.
Proof.
  intros fuel.
  rewrite (parsePart_empty_step fuel "0"), (parsePart_star_step fuel "0")
    by reflexivity.
  split; [reflexivity|].
  change (fst (Atoi "0")) with 0.
  rewrite for_loop_step_zero; [reflexivity| |lia].
  unfold is_int, MinInt, MaxInt. lia.
Qed.

(** ** The schedule assembler *)

Lemma parse_field_ok {value : Type} (p : option (result (gset Z)))
    (set : gset Z -> job value) (k : job value -> option (job value * option error))
    (j : job value) :
  parse_field value p set k = Some (j, None) ->
  exists r, p = Some (Ok r) /\ k (set r) = Some (j, None).
Proof.
  unfold parse_field. destruct p as [[r|e]|]; [|discriminate..].
  intros Hk. exists r. split; [reflexivity|exact Hk].
Qed.

(** C2. When [parseSchedule] succeeds, the expression splits into six
    fields, every field set is what [parsePart] returned for its field, save
    that: if the day-of-month set has fewer than 31 members and the
    day-of-week set has 7, the day-of-week set is empty; otherwise, if the
    day-of-week set has fewer than 7 members and the day-of-month set has
    31, the day-of-month set is empty; otherwise both are as parsed. *)
Theorem parseSchedule_disjunction_rule {value : Type} (fuel : nat) (s : string)
    (j : job value) :
  parseSchedule fuel s = Some (j, None) ->
  exists (p0 p1 p2 p3 p4 p5 : string) (d w : gset Z),
    Split (matchSpaces_ReplaceAll s) " " = [p0; p1; p2; p3; p4; p5] /\
    parsePart fuel p0 0 59 = Some (Ok (job_second j)) /\
    parsePart fuel p1 0 59 = Some (Ok (job_min j)) /\
    parsePart fuel p2 0 23 = Some (Ok (job_hour j)) /\
    parsePart fuel p3 1 31 = Some (Ok d) /\
    parsePart fuel p4 1 12 = Some (Ok (job_month j)) /\
    parsePart fuel p5 0 6 = Some (Ok w) /\
    ((size d < 31)%nat /\ size w = 7%nat ->
       job_day j = d /\ job_dayOfWeek j = ∅) /\
    (~ ((size d < 31)%nat /\ size w = 7%nat) ->
     (size w < 7)%nat /\ size d = 31%nat ->
       job_day j = ∅ /\ job_dayOfWeek j = w) /\
    (~ ((size d < 31)%nat /\ size w = 7%nat) ->
     ~ ((size w < 7)%nat /\ size d = 31%nat) ->
       job_day j = d /\ job_dayOfWeek j = w).
Proof.
  unfold parseSchedule. intros Hparse.
  destruct (Split (matchSpaces_ReplaceAll s) " ")
    as [|p0 [|p1 [|p2 [|p3 [|p4 [|p5 [|p6 rest]]]]]]]; try discriminate.
  apply parse_field_ok in Hparse as (r0 & H0 & Hparse).
  apply parse_field_ok in Hparse as (r1 & H1 & Hparse).
  apply parse_field_ok in Hparse as (r2 & H2 & Hparse).
  apply parse_field_ok in Hparse as (d & H3 & Hparse).
  apply parse_field_ok in Hparse as (r4 & H4 & Hparse).
  apply parse_field_ok in Hparse as (w & H5 & Hparse).
  injection Hparse as <-.
  exists p0, p1, p2, p3, p4, p5, d, w.
  unfold day_switch. cbn [set_second set_min set_hour set_day set_month
    set_dayOfWeek job_second job_min job_hour job_day job_month job_dayOfWeek].
  destruct (Nat.ltb_spec (size d) 31) as [Hd|Hd];
    destruct (Nat.eqb_spec (size w) 7) as [Hw|Hw];
    destruct (Nat.ltb_spec (size w) 7) as [Hw'|Hw'];
    destruct (Nat.eqb_spec (size d) 31) as [Hd'|Hd'];
    cbn [andb set_day set_dayOfWeek job_second job_min job_hour job_day
         job_month job_dayOfWeek];
    repeat (split; [first [reflexivity | assumption]|]);
    (split; [|split]); intros; (split; [reflexivity || lia | reflexivity || lia]).
Qed.

(** The schedule of the first example of the documentation: the first day
    of every month at noon. *)
Lemma parseSchedule_disjunction_rule_witness :
  parseSchedule 100 "0 0 12 1 * *" = Some (job_0_0_12_1, None) /\
  exists (p0 p1 p2 p3 p4 p5 : string) (d w : gset Z),
    Split (matchSpaces_ReplaceAll "0 0 12 1 * *") " " = [p0; p1; p2; p3; p4; p5] /\
    parsePart 100 p0 0 59 = Some (Ok (job_second job_0_0_12_1)) /\
    parsePart 100 p1 0 59 = Some (Ok (job_min job_0_0_12_1)) /\
    parsePart 100 p2 0 23 = Some (Ok (job_hour job_0_0_12_1)) /\
    parsePart 100 p3 1 31 = Some (Ok d) /\
    parsePart 100 p4 1 12 = Some (Ok (job_month job_0_0_12_1)) /\
    parsePart 100 p5 0 6 = Some (Ok w) /\
    ((size d < 31)%nat /\ size w = 7%nat ->
       job_day job_0_0_12_1 = d /\ job_dayOfWeek job_0_0_12_1 = ∅) /\
    (~ ((size d < 31)%nat /\ size w = 7%nat) ->
     (size w < 7)%nat /\ size d = 31%nat ->
       job_day job_0_0_12_1 = ∅ /\ job_dayOfWeek job_0_0_12_1 = w) /\
    (~ ((size d < 31)%nat /\ size w = 7%nat) ->
     ~ ((size w < 7)%nat /\ size d = 31%nat) ->
       job_day job_0_0_12_1 = d /\ job_dayOfWeek job_0_0_12_1 = w).
Proof.
  split; [vm_compute; reflexivity|].
  apply (parseSchedule_disjunction_rule 100 "0 0 12 1 * *" job_0_0_12_1).
  vm_compute. reflexivity.
Defined.

(** ** Registration *)

Lemma app_singleton_neq {A : Type} (l : list A) (x : A) : (l ++ [x])%list <> l.
Proof.
  intros Heq. apply (f_equal (@length A)) in Heq.
  rewrite length_app in Heq. simpl in Heq. lia.
Qed.

Section AddJob_properties.

Variable value : Type.
Variable rtype : Type.
Context `{EqDecision rtype}.
Variable Ticker : Type.
Variable TypeOf : value -> rtype.
Variable KindOf : rtype -> Kind.
Variable Ins : rtype -> list rtype.
Variable Implements : rtype -> rtype -> bool.

(** C7. Whenever [AddJob] returns an error the cron table is exactly as it
    was, and so it is when the call panics; a job is appended to the
    collection if and only if [AddJob] returns nil, and it is then the
    parsed schedule with the callable and its arguments. *)
Theorem AddJob_appends_iff_no_error (fuel : nat) (c c' : Crontab value Ticker)
    (schedule : string) (fn : option value) (args : list (option value))
    (o : outcome) :
  AddJob TypeOf KindOf Ins Implements fuel c schedule fn args = Some (o, c') ->
  (forall e, o = Returned (Some e) -> c' = c) /\
  (o = Panicked -> c' = c) /\
  ((exists j, jobs c' = (jobs c ++ [j])%list) <-> o = Returned None) /\
  (o = Returned None ->
     exists j, parseSchedule fuel schedule = Some (j, None) /\
       c' = mkCrontab (ticker c) (jobs c ++ [set_fn_args j fn args])).
Proof.
  intros Hadd.
  assert (Hcases : (o <> Returned None /\ c' = c) \/
    (o = Returned None /\ exists j, parseSchedule fuel schedule = Some (j, None) /\
       c' = mkCrontab (ticker c) (jobs c ++ [set_fn_args j fn args]))).
  { unfold AddJob in Hadd.
    destruct (parseSchedule fuel schedule) as [[j [err|]]|]; [| |discriminate].
    - injection Hadd as <- <-. left. split; [discriminate|reflexivity].
    - destruct fn as [f|]; [|injection Hadd as <- <-; left; split; [discriminate|reflexivity]].
      destruct (negb (bool_decide (KindOf (TypeOf f) = Func)));
        [injection Hadd as <- <-; left; split; [discriminate|reflexivity]|].
      destruct (negb (length args =? length (Ins (TypeOf f)))%nat);
        [injection Hadd as <- <-; left; split; [discriminate|reflexivity]|].
      destruct (check_params _ _ _ _ _ _ _ _) as [[e|]|];
        injection Hadd as <- <-.
      + left. split; [discriminate|reflexivity].
      + right. split; [reflexivity|]. exists j. split; reflexivity.
      + left. split; [discriminate|reflexivity]. }
  destruct Hcases as [[Hne ->]|[-> (j & Hj & ->)]].
  - split; [reflexivity|]. split; [reflexivity|]. split; [|contradiction].
    split; [|contradiction].
    intros [j Hj]. symmetry in Hj. destruct (app_singleton_neq _ _ Hj).
  - split; [discriminate|]. split; [discriminate|]. split.
    + split; [reflexivity|]. intros _. eexists. reflexivity.
    + intros _. exists j. split; [exact Hj|reflexivity].
Qed.

(** X23. A nil argument for a parameter of interface type makes [AddJob]
    panic (a method call on the nil [reflect.Type]) where an error is
    returned for every other mismatch; the cron table is not changed. *)
Theorem AddJob_nil_argument_panics (fuel : nat) (c : Crontab value Ticker)
    (schedule : string) (j : job value) (f : value) (t1 : rtype) :
  parseSchedule fuel schedule = Some (j, None) ->
  KindOf (TypeOf f) = Func -> Ins (TypeOf f) = [t1] -> KindOf t1 = Interface ->
  AddJob TypeOf KindOf Ins Implements fuel c schedule (Some f) [None]
  = Some (Panicked, c).
Proof.
  intros Hparse Hfunc Hins Hiface. unfold AddJob.
  rewrite Hparse, Hfunc, Hins. cbn. rewrite Hins. cbn.
  destruct (decide (Some t1 = None)) as [Heq|_]; [discriminate|].
  rewrite Hiface. reflexivity.
Qed.

End AddJob_properties.

(** The registration of the documentation's [myFunc2] on an empty table. *)
Lemma AddJob_appends_iff_no_error_witness :
  ex_AddJob 100 (mkCrontab tt []) "0 0 0 * * 1,2" (Some V_myFunc2) ex_args
    = Some (Returned None, mkCrontab tt [ex_job]) /\
  ((exists j, jobs (mkCrontab tt [ex_job]) = (jobs (mkCrontab tt []) ++ [j])%list)
   <-> Returned None = Returned None).
Proof.
  split; [vm_compute; reflexivity|].
  apply (AddJob_appends_iff_no_error ex_value ex_type unit
           ex_TypeOf ex_KindOf ex_Ins ex_Implements
           100 (mkCrontab tt []) (mkCrontab tt [ex_job])
           "0 0 0 * * 1,2" (Some V_myFunc2) ex_args (Returned None)).
  vm_compute. reflexivity.
Defined.

(** The four ways in which [AddJob] refuses a job, on a table that holds
    one job already. *)
Example AddJob_bad_schedule :
  ex_AddJob 100 (mkCrontab tt [ex_job]) "* * * * *" (Some V_myFunc2) ex_args
  = Some (Returned (Some ErrComponents), mkCrontab tt [ex_job]).
Proof. vm_compute. reflexivity. Qed.

Example AddJob_not_a_function :
  ex_AddJob 100 (mkCrontab tt [ex_job]) "* * * * * *" (Some (V_int 3)) []
  = Some (Returned (Some ErrNotFunc), mkCrontab tt [ex_job]) /\
  ex_AddJob 100 (mkCrontab tt [ex_job]) "* * * * * *" None []
  = Some (Returned (Some ErrNotFunc), mkCrontab tt [ex_job]).
Proof. split; vm_compute; reflexivity. Qed.

Example AddJob_argument_count :
  ex_AddJob 100 (mkCrontab tt [ex_job]) "* * * * * *" (Some V_myFunc2)
            [Some (V_int 123)]
  = Some (Returned (Some ErrArgCount), mkCrontab tt [ex_job]).
Proof. vm_compute. reflexivity. Qed.

Example AddJob_argument_type :
  ex_AddJob 100 (mkCrontab tt [ex_job]) "* * * * * *" (Some V_myFunc2)
            [Some (V_string "every five min"); Some (V_string "0")]
  = Some (Returned (Some (ErrParamType 1)), mkCrontab tt [ex_job]).
Proof. vm_compute. reflexivity. Qed.

(** [Clear] empties the collection and keeps the ticker. *)
Lemma Clear_jobs {value Ticker : Type} (c : Crontab value Ticker) :
  jobs (Clear c) = [] /\ ticker (Clear c) = ticker c.
Proof. split; reflexivity. Qed.

(** ** White space around the expression *)

Lemma replace_spaces_run (g rest : string) :
  all_space g = true ->
  replace_spaces true (g ++ rest) = replace_spaces true rest.
Proof.
  induction g as [|c g IH]; [reflexivity|].
  rewrite append_cons. simpl. intros [Hc Hg]%andb_prop.
  rewrite Hc. exact (IH Hg).
Qed.

Lemma replace_spaces_gap (g rest : string) :
  is_gap g ->
  replace_spaces false (g ++ rest) = String " " (replace_spaces true rest).
Proof.
  intros [Hne Hg]. destruct g as [|c g]; [discriminate|].
  rewrite append_cons. simpl in Hg |- *. apply andb_prop in Hg as [Hc Hg].
  rewrite Hc, (replace_spaces_run _ _ Hg). reflexivity.
Qed.

Lemma replace_spaces_field (b : bool) (f rest : string) :
  is_field f ->
  replace_spaces b (f ++ rest) = (f ++ replace_spaces false rest)%string.
Proof.
  intros [Hne Hf]. revert b. induction f as [|c f IH]; [discriminate|].
  intros b. rewrite !append_cons. simpl in Hf |- *.
  apply andb_prop in Hf as [Hc Hf]. apply negb_true_iff in Hc. rewrite Hc.
  f_equal. destruct f as [|c' f]; [reflexivity|].
  apply IH; [reflexivity|exact Hf].
Qed.

Lemma replace_spaces_trail (b : bool) (g : string) :
  all_space g = true ->
  replace_spaces b g = if negb b && nonempty g then " "%string else EmptyString.
Proof.
  intros Hg. destruct g as [|c g]; [destruct b; reflexivity|].
  simpl in Hg |- *. apply andb_prop in Hg as [Hc Hg]. rewrite Hc.
  assert (Hrun : replace_spaces true g = EmptyString).
  { clear Hc. induction g as [|c' g IH]; [reflexivity|].
    simpl in Hg |- *. apply andb_prop in Hg as [Hc' Hg]. rewrite Hc'.
    exact (IH Hg). }
  rewrite Hrun. destruct b; reflexivity.
Qed.

Lemma Split_cons (s : string) (sep : ascii) :
  exists h r, Split s sep = h :: r.
Proof.
  induction s as [|c s (h & r & IH)]; simpl; [eauto|].
  destruct (Ascii.eqb c sep); [eauto|]. rewrite IH. eauto.
Qed.

Lemma Split_field (f rest : string) :
  no_space f = true ->
  Split (f ++ String " " rest) " " = f :: Split rest " ".
Proof.
  induction f as [|c f IH]; [reflexivity|].
  rewrite append_cons. simpl. intros [Hc Hf]%andb_prop.
  replace (Ascii.eqb c " ") with false by (by_ascii c).
  rewrite (IH Hf). reflexivity.
Qed.

Lemma Split_last (f : string) :
  no_space f = true -> Split f " " = [f].
Proof.
  induction f as [|c f IH]; [reflexivity|].
  simpl. intros [Hc Hf]%andb_prop.
  replace (Ascii.eqb c " ") with false by (by_ascii c).
  rewrite (IH Hf). reflexivity.
Qed.

Lemma append_empty_r (s : string) : (s ++ EmptyString)%string = s.
Proof. induction s as [|c s IH]; [reflexivity|]. rewrite append_cons, IH. reflexivity. Qed.

(** C10. An expression of six fields with white space before the first or
    after the last is rejected with the field-count error, and the job
    returned with it is the zero value: the collapsed string keeps a
    space at that end, and the split yields an empty part more. *)
Theorem parseSchedule_outer_whitespace {value : Type} (fuel : nat)
    (lead f0 s1 f1 s2 f2 s3 f3 s4 f4 s5 f5 trail : string) :
  is_field f0 -> is_field f1 -> is_field f2 ->
  is_field f3 -> is_field f4 -> is_field f5 ->
  is_gap s1 -> is_gap s2 -> is_gap s3 -> is_gap s4 -> is_gap s5 ->
  all_space lead = true -> all_space trail = true ->
  nonempty lead || nonempty trail = true ->
  parseSchedule (value := value) fuel
    (padded lead f0 s1 f1 s2 f2 s3 f3 s4 f4 s5 f5 trail)
  = Some (zero_job, Some ErrComponents).
Proof.
  intros F0 F1 F2 F3 F4 F5 G1 G2 G3 G4 G5 Hlead Htrail Houter.
  assert (Hcore : forall b,
    replace_spaces b
      (f0 ++ s1 ++ f1 ++ s2 ++ f2 ++ s3 ++ f3 ++ s4 ++ f4 ++ s5 ++ f5 ++ trail)
    = (f0 ++ String " " (f1 ++ String " " (f2 ++ String " " (f3 ++ String " "
        (f4 ++ String " " (f5 ++ (if nonempty trail then " " else EmptyString)))))))%string).
  { intros b.
    rewrite (replace_spaces_field b f0 _ F0), (replace_spaces_gap s1 _ G1).
    rewrite (replace_spaces_field true f1 _ F1), (replace_spaces_gap s2 _ G2).
    rewrite (replace_spaces_field true f2 _ F2), (replace_spaces_gap s3 _ G3).
    rewrite (replace_spaces_field true f3 _ F3), (replace_spaces_gap s4 _ G4).
    rewrite (replace_spaces_field true f4 _ F4), (replace_spaces_gap s5 _ G5).
    rewrite (replace_spaces_field true f5 _ F5).
    rewrite (replace_spaces_trail false trail Htrail). reflexivity. }
  assert (Hsplit : forall post : string,
    Split (f0 ++ String " " (f1 ++ String " " (f2 ++ String " " (f3 ++ String " "
        (f4 ++ String " " (f5 ++ post)))))) " "
    = f0 :: f1 :: f2 :: f3 :: f4 :: Split (f5 ++ post) " ").
  { intros post.
    rewrite (Split_field f0 _ (proj2 F0)), (Split_field f1 _ (proj2 F1)),
      (Split_field f2 _ (proj2 F2)), (Split_field f3 _ (proj2 F3)),
      (Split_field f4 _ (proj2 F4)). reflexivity. }
  assert (Hlast : forall post : string, exists h r, Split (f5 ++ post) " " = h :: r)
    by (intros post; apply Split_cons).
  unfold parseSchedule, matchSpaces_ReplaceAll, padded.
  destruct lead as [|c lead].
  - (* nothing before the first field: white space follows the last *)
    simpl in Houter. rewrite Houter in Hcore.
    change (EmptyString ++ ?x)%string with x. rewrite Hcore, Hsplit.
    rewrite (Split_field f5 EmptyString (proj2 F5)). reflexivity.
  - (* white space before the first field *)
    rewrite (replace_spaces_gap (String c lead) _ (conj eq_refl Hlead)).
    rewrite Hcore. cbn [Split]. change (Ascii.eqb " " " ") with true. cbn iota.
    rewrite Hsplit. destruct (Hlast (if nonempty trail then " " else EmptyString))
      as (h & r & ->). reflexivity.
Qed.

(** A single space before an expression of six wildcards. *)
Lemma parseSchedule_outer_whitespace_witness :
  parseSchedule (value := unit) 0 " * * * * * *"
  = Some (zero_job, Some ErrComponents).
Proof.
  apply (parseSchedule_outer_whitespace (value := unit) 0
           " " "*" " " "*" " " "*" " " "*" " " "*" " " "*" EmptyString);
    try (split; reflexivity); reflexivity.
Defined.

(** ** The examples of the specification *)

Example parsePart_example_evens :
  parsePart 100 "*/2" 0 59
  = Some (Ok (list_to_set ((fun k => 2 * k) <$> seqZ 0 30))).
Proof. vm_compute. reflexivity. Qed.

Example parsePart_example_odds :
  parsePart 100 "1-59/2" 0 59
  = Some (Ok (list_to_set ((fun k => 2 * k + 1) <$> seqZ 0 30))).
Proof. vm_compute. reflexivity. Qed.

Example parsePart_example_list :
  parsePart 100 "10,15,19" 0 23 = Some (Ok (list_to_set [10; 15; 19])).
Proof. vm_compute. reflexivity. Qed.

Example parsePart_example_range :
  parsePart 100 "1-15" 0 59 = Some (Ok (list_to_set (seqZ 1 15))).
Proof. vm_compute. reflexivity. Qed.

Example parsePart_example_out_of_range :
  parsePart 100 "70" 0 59 = Some (Err (ErrOutOfRangeInt 70 "70" 0 59)).
Proof. vm_compute. reflexivity. Qed.

Example parseSchedule_example_seven_fields :
  parseSchedule (value := unit) 100 "0 0 0 1 1 1 1"
  = Some (zero_job, Some ErrComponents).
Proof. vm_compute. reflexivity. Qed.

Lemma elem_of_seqZ_set (m len x : Z) :
  x ∈ (list_to_set (seqZ m len) : gset Z) <-> m <= x < m + len.
Proof. rewrite elem_of_list_to_set, elem_of_seqZ. reflexivity. Qed.

(** The expression 0 0 12 1 * * parses to second 0, minute 0, hour 12,
    day 1, every month and no day of week; the job is due exactly at
    second 0, minute 0, hour 12 of day 1, in any month. *)
Theorem schedule_first_of_month :
  parseSchedule 100 "0 0 12 1 * *" = Some (job_0_0_12_1, None) /\
  forall t : tick,
    job_tick job_0_0_12_1 t = true <->
    tick_second t = 0 /\ tick_min t = 0 /\ tick_hour t = 12 /\
    tick_day t = 1 /\ 1 <= tick_month t <= 12.
Proof.
  split; [vm_compute; reflexivity|]. intros t.
  rewrite (job_tick_true job_0_0_12_1 t). unfold job_0_0_12_1.
  cbn [job_second job_min job_hour job_day job_month job_dayOfWeek].
  change (list_to_set [1; 2; 3; 4; 5; 6; 7; 8; 9; 10; 11; 12] : gset Z)
    with (list_to_set (seqZ 1 12) : gset Z).
  rewrite elem_of_seqZ_set, !elem_of_singleton, elem_of_empty. lia.
Qed.

(** The expression 0 0 0 * * 1,2 parses to no day of month and the
    days of week 1 and 2; the job is due exactly at midnight on Mondays and
    Tuesdays, whatever the day of month. *)
Theorem schedule_weekdays :
  parseSchedule 100 "0 0 0 * * 1,2" = Some (job_weekdays, None) /\
  forall t : tick,
    job_tick job_weekdays t = true <->
    tick_second t = 0 /\ tick_min t = 0 /\ tick_hour t = 0 /\
    1 <= tick_month t <= 12 /\ (tick_dayOfWeek t = 1 \/ tick_dayOfWeek t = 2).
Proof.
  split; [vm_compute; reflexivity|]. intros t.
  rewrite (job_tick_true job_weekdays t). unfold job_weekdays.
  cbn [job_second job_min job_hour job_day job_month job_dayOfWeek].
  change (list_to_set [1; 2; 3; 4; 5; 6; 7; 8; 9; 10; 11; 12] : gset Z)
    with (list_to_set (seqZ 1 12) : gset Z).
  change (list_to_set [1; 2] : gset Z) with (list_to_set (seqZ 1 2) : gset Z).
  rewrite !elem_of_seqZ_set, !elem_of_singleton, elem_of_empty. lia.
Qed.

(** The expression 0 0 0 1 1 1 restricts both day fields and keeps
    both sets; the job is due at midnight in January when the day of
    month is 1 or the day of week is 1. *)
Theorem schedule_both_days :
  parseSchedule 100 "0 0 0 1 1 1" = Some (job_both_days, None) /\
  forall t : tick,
    job_tick job_both_days t = true <->
    tick_second t = 0 /\ tick_min t = 0 /\ tick_hour t = 0 /\
    tick_month t = 1 /\ (tick_day t = 1 \/ tick_dayOfWeek t = 1).
Proof.
  split; [vm_compute; reflexivity|]. intros t.
  rewrite (job_tick_true job_both_days t). unfold job_both_days.
  cbn [job_second job_min job_hour job_day job_month job_dayOfWeek].
  rewrite !elem_of_singleton. tauto.
Qed.

(** Six wildcards parse to the six whole bounds, and the job is due
    at every instant of the calendar. *)
Theorem schedule_always :
  parseSchedule 100 "* * * * * *" = Some (job_always, None) /\
  forall t : tick,
    0 <= tick_second t <= 59 -> 0 <= tick_min t <= 59 ->
    0 <= tick_hour t <= 23 -> 1 <= tick_day t <= 31 ->
    1 <= tick_month t <= 12 -> 0 <= tick_dayOfWeek t <= 6 ->
    job_tick job_always t = true.
Proof.
  split; [vm_compute; reflexivity|]. intros t Hs Hm Hh Hd Hmo Hw.
  rewrite (job_tick_true job_always t). unfold job_always.
  cbn [job_second job_min job_hour job_day job_month job_dayOfWeek].
  rewrite !elem_of_seqZ_set. lia.
Qed.

(** ** Instances of the general statements *)

Lemma MinInt_le_0 : MinInt <= 0.
Proof. unfold MinInt. lia. Qed.

Lemma MinInt_le_1 : MinInt <= 1.
Proof. unfold MinInt. lia. Qed.

(** The seconds field. *)
Lemma parsePart_wildcard_witness :
  exists r,
    (forall fuel, (0 < fuel)%nat -> 59 - 0 + 1 < Z.of_nat fuel ->
       parsePart fuel "*" 0 59 = Some (Ok r)) /\
    (forall x, x ∈ r <-> 0 <= x <= 59).
Proof.
  apply (parsePart_wildcard 0 59); [exact MinInt_le_0|reflexivity].
Defined.

(** Every second minute. *)
Lemma parsePart_star_step_spec_witness :
  exists r,
    (forall fuel, (0 < fuel)%nat -> 59 - 0 + 1 < Z.of_nat fuel ->
       parsePart fuel "*/2" 0 59 = Some (Ok r)) /\
    (forall x, x ∈ r <-> 0 <= x <= 59 /\ (2 | x - 0)).
Proof.
  apply (parsePart_star_step_spec "2" 0 59);
    [reflexivity|reflexivity|split; discriminate|exact MinInt_le_0|discriminate].
Defined.

(** Every second minute, on the odd minutes. *)
Lemma parsePart_range_step_spec_witness :
  (1 < 0 \/ 59 < 59 ->
     forall fuel, parsePart fuel "1-59/2" 0 59
                  = Some (Err (ErrOutOfRange "1" "1-59/2" 0 59))) /\
  (0 <= 1 /\ 59 <= 59 ->
     exists r,
       (forall fuel, (0 < fuel)%nat -> 59 - 0 + 1 < Z.of_nat fuel ->
          parsePart fuel "1-59/2" 0 59 = Some (Ok r)) /\
       (forall x, x ∈ r <-> 1 <= x <= 59 /\ (2 | x - 1))).
Proof.
  apply (parsePart_range_step_spec "1" "59" "2" 0 59);
    [reflexivity|reflexivity|reflexivity|reflexivity|reflexivity|reflexivity
     |discriminate|discriminate|split; discriminate|discriminate].
Defined.

(** Every fifth minute, written without the wildcard. *)
Lemma parsePart_empty_base_as_wildcard_witness :
  parsePart 100 "/5" 0 59 = parsePart 100 "*/5" 0 59.
Proof.
  apply (parsePart_empty_base_as_wildcard 100 "5" 0 59); reflexivity.
Defined.

(** The odd minutes lie in the bound of the minutes. *)
Lemma parsePart_members_in_bound_witness :
  parsePart 100 "1-59/2" 0 59
  = Some (Ok (list_to_set ((fun k => 2 * k + 1) <$> seqZ 0 30))) /\
  (forall x, x ∈ (list_to_set ((fun k => 2 * k + 1) <$> seqZ 0 30) : gset Z) ->
             0 <= x <= 59).
Proof.
  split; [vm_compute; reflexivity|].
  apply (parsePart_members_in_bound 100 "1-59/2" 0 59);
    [exact MinInt_le_0|reflexivity| |vm_compute; reflexivity].
  intros m1 m2 Hm. vm_compute in Hm. injection Hm as <- <-. discriminate.
Defined.

(** The hours 10, 15 and 19. *)
Lemma parsePart_list_nonempty_witness :
  parsePart 100 "10,15,19" 0 23 = Some (Ok (list_to_set [10; 15; 19])) /\
  (list_to_set [10; 15; 19] : gset Z) <> ∅.
Proof.
  split; [vm_compute; reflexivity|].
  apply (parsePart_list_nonempty 100 "10,15,19" 0 23);
    [reflexivity|discriminate|vm_compute; reflexivity].
Defined.

(** Every fifth minute. *)
Lemma parsePart_terminates_witness :
  exists res, parsePart 61 "*/5" 0 59 = Some res.
Proof.
  apply (parsePart_terminates 61 "*/5" 0 59);
    [exact MinInt_le_0|reflexivity| |lia|reflexivity].
  intros m1 m2 Hm. vm_compute in Hm. injection Hm as <- <-.
  split; discriminate.
Defined.

(** A function of one [interface{}] parameter registered with nil. *)
Lemma AddJob_nil_argument_panics_witness :
  ex_AddJob 100 (mkCrontab tt []) "* * * * * *" (Some V_funcAny) [None]
  = Some (Panicked, mkCrontab tt []).
Proof.
  apply (AddJob_nil_argument_panics ex_value ex_type unit
           ex_TypeOf ex_KindOf ex_Ins ex_Implements 100 (mkCrontab tt [])
           "* * * * * *"
           (mkJob (list_to_set (seqZ 0 60)) (list_to_set (seqZ 0 60))
                  (list_to_set (seqZ 0 24)) (list_to_set (seqZ 1 31))
                  (list_to_set (seqZ 1 12)) (list_to_set (seqZ 0 7)) None [])
           V_funcAny T_any);
    [vm_compute; reflexivity|reflexivity..].
Defined.

(** ** A parsed schedule at a tick *)

(** The shape of a successful parse: six fields, their six sets, and the
    final switch. *)
Lemma parseSchedule_success {value : Type} (fuel : nat) (s : string)
    (j : job value) :
  parseSchedule fuel s = Some (j, None) ->
  exists (p0 p1 p2 p3 p4 p5 : string) (r0 r1 r2 d r4 w : gset Z),
    Split (matchSpaces_ReplaceAll s) " " = [p0; p1; p2; p3; p4; p5] /\
    parsePart fuel p0 0 59 = Some (Ok r0) /\
    parsePart fuel p1 0 59 = Some (Ok r1) /\
    parsePart fuel p2 0 23 = Some (Ok r2) /\
    parsePart fuel p3 1 31 = Some (Ok d) /\
    parsePart fuel p4 1 12 = Some (Ok r4) /\
    parsePart fuel p5 0 6 = Some (Ok w) /\
    j = day_switch (mkJob r0 r1 r2 d r4 w None []).
Proof.
  unfold parseSchedule. intros Hparse.
  destruct (Split (matchSpaces_ReplaceAll s) " ")
    as [|p0 [|p1 [|p2 [|p3 [|p4 [|p5 [|p6 rest]]]]]]]; try discriminate.
  apply parse_field_ok in Hparse as (r0 & H0 & Hparse).
  apply parse_field_ok in Hparse as (r1 & H1 & Hparse).
  apply parse_field_ok in Hparse as (r2 & H2 & Hparse).
  apply parse_field_ok in Hparse as (d & H3 & Hparse).
  apply parse_field_ok in Hparse as (r4 & H4 & Hparse).
  apply parse_field_ok in Hparse as (w & H5 & Hparse).
  injection Hparse as <-.
  exists p0, p1, p2, p3, p4, p5, r0, r1, r2, d, r4, w.
  repeat (split; [first [reflexivity | assumption]|]). reflexivity.
Qed.

(** The tick test on the job that the final switch returns. *)
Lemma job_tick_day_switch {value : Type} (r0 r1 r2 d r4 w : gset Z)
    (fn : option value) (args : list (option value)) (t : tick) :
  job_tick (day_switch (mkJob r0 r1 r2 d r4 w fn args)) t = true <->
    tick_second t ∈ r0 /\ tick_min t ∈ r1 /\ tick_hour t ∈ r2 /\
    tick_month t ∈ r4 /\ day_rule d w (tick_day t) (tick_dayOfWeek t).
Proof.
  rewrite job_tick_true. unfold day_switch, day_rule.
  cbn [job_day job_dayOfWeek].
  destruct ((size d <? 31)%nat && (size w =? 7)%nat);
    [|destruct ((size w <? 7)%nat && (size d =? 31)%nat)];
    cbn [set_day set_dayOfWeek job_second job_min job_hour job_day job_month
         job_dayOfWeek];
    rewrite ?elem_of_empty; tauto.
Qed.

(** X8. A job parsed from an expression is due at a tick exactly when the
    second, minute, hour and month are in the sets of their fields and the
    day test holds: the day of month alone when that set has fewer than 31
    members and the day-of-week set has 7, the day of week alone when that
    set has fewer than 7 members and the day-of-month set has 31, and
    either of them otherwise. *)
Theorem parseSchedule_due {value : Type} (fuel : nat) (s : string)
    (j : job value) :
  parseSchedule fuel s = Some (j, None) ->
  exists (p0 p1 p2 p3 p4 p5 : string) (r0 r1 r2 d r4 w : gset Z),
    Split (matchSpaces_ReplaceAll s) " " = [p0; p1; p2; p3; p4; p5] /\
    parsePart fuel p0 0 59 = Some (Ok r0) /\
    parsePart fuel p1 0 59 = Some (Ok r1) /\
    parsePart fuel p2 0 23 = Some (Ok r2) /\
    parsePart fuel p3 1 31 = Some (Ok d) /\
    parsePart fuel p4 1 12 = Some (Ok r4) /\
    parsePart fuel p5 0 6 = Some (Ok w) /\
    forall t : tick,
      job_tick j t = true <->
      tick_second t ∈ r0 /\ tick_min t ∈ r1 /\ tick_hour t ∈ r2 /\
      tick_month t ∈ r4 /\ day_rule d w (tick_day t) (tick_dayOfWeek t).
Proof.
  intros Hparse.
  destruct (parseSchedule_success _ _ _ Hparse)
    as (p0 & p1 & p2 & p3 & p4 & p5 & r0 & r1 & r2 & d & r4 & w &
        Hs & H0 & H1 & H2 & H3 & H4 & H5 & ->).
  exists p0, p1, p2, p3, p4, p5, r0, r1, r2, d, r4, w.
  repeat (split; [assumption|]).
  intros t. apply job_tick_day_switch.
Qed.

Lemma wildcard_day_of_month (fuel : nat) (d : gset Z) :
  parsePart fuel "*" 1 31 = Some (Ok d) -> d = list_to_set (seqZ 1 31).
Proof.
  intros Hd.
  apply (parsePart_mono _ (Nat.max fuel 100)) in Hd; [|lia].
  assert (Hfull : parsePart 100 "*" 1 31 = Some (Ok (list_to_set (seqZ 1 31))))
    by (vm_compute; reflexivity).
  apply (parsePart_mono _ (Nat.max fuel 100)) in Hfull; [|lia].
  congruence.
Qed.

Lemma wildcard_day_of_week (fuel : nat) (w : gset Z) :
  parsePart fuel "*" 0 6 = Some (Ok w) -> w = list_to_set (seqZ 0 7).
Proof.
  intros Hw.
  apply (parsePart_mono _ (Nat.max fuel 100)) in Hw; [|lia].
  assert (Hfull : parsePart 100 "*" 0 6 = Some (Ok (list_to_set (seqZ 0 7))))
    by (vm_compute; reflexivity).
  apply (parsePart_mono _ (Nat.max fuel 100)) in Hfull; [|lia].
  congruence.
Qed.

(** X9. In a parsed schedule a wildcard in one day field hands the day test
    to the other: with the day of week a wildcard and fewer than 31 days of
    month, the job is due on those days of month only; with the day of
    month a wildcard and fewer than 7 days of week, on those days of week
    only; with both wildcards, on every day of the calendar. *)
Theorem parseSchedule_day_wildcard {value : Type} (fuel : nat) (s : string)
    (j : job value) :
  parseSchedule fuel s = Some (j, None) ->
  exists (p0 p1 p2 p3 p4 p5 : string) (r0 r1 r2 d r4 w : gset Z),
    Split (matchSpaces_ReplaceAll s) " " = [p0; p1; p2; p3; p4; p5] /\
    parsePart fuel p0 0 59 = Some (Ok r0) /\
    parsePart fuel p1 0 59 = Some (Ok r1) /\
    parsePart fuel p2 0 23 = Some (Ok r2) /\
    parsePart fuel p3 1 31 = Some (Ok d) /\
    parsePart fuel p4 1 12 = Some (Ok r4) /\
    parsePart fuel p5 0 6 = Some (Ok w) /\
    (p5 = "*" -> (size d < 31)%nat -> forall t : tick,
       job_tick j t = true <->
       tick_second t ∈ r0 /\ tick_min t ∈ r1 /\ tick_hour t ∈ r2 /\
       tick_month t ∈ r4 /\ tick_day t ∈ d) /\
    (p3 = "*" -> (size w < 7)%nat -> forall t : tick,
       job_tick j t = true <->
       tick_second t ∈ r0 /\ tick_min t ∈ r1 /\ tick_hour t ∈ r2 /\
       tick_month t ∈ r4 /\ tick_dayOfWeek t ∈ w) /\
    (p3 = "*" -> p5 = "*" -> forall t : tick,
       1 <= tick_day t <= 31 \/ 0 <= tick_dayOfWeek t <= 6 ->
       (job_tick j t = true <->
        tick_second t ∈ r0 /\ tick_min t ∈ r1 /\ tick_hour t ∈ r2 /\
        tick_month t ∈ r4)).
Proof.
  intros Hparse.
  destruct (parseSchedule_success _ _ _ Hparse)
    as (p0 & p1 & p2 & p3 & p4 & p5 & r0 & r1 & r2 & d & r4 & w &
        Hs & H0 & H1 & H2 & H3 & H4 & H5 & ->).
  exists p0, p1, p2, p3, p4, p5, r0, r1, r2, d, r4, w.
  repeat (split; [assumption|]).
  assert (Hsize31 : size (list_to_set (seqZ 1 31) : gset Z) = 31%nat)
    by (vm_compute; reflexivity).
  assert (Hsize7 : size (list_to_set (seqZ 0 7) : gset Z) = 7%nat)
    by (vm_compute; reflexivity).
  split; [|split].
  - intros -> Hd t. apply wildcard_day_of_week in H5 as ->.
    rewrite job_tick_day_switch. unfold day_rule. rewrite Hsize7.
    apply Nat.ltb_lt in Hd. rewrite Hd. reflexivity.
  - intros -> Hw t. apply wildcard_day_of_month in H3 as ->.
    rewrite job_tick_day_switch. unfold day_rule. rewrite Hsize31.
    replace (size w =? 7)%nat with false by (symmetry; apply Nat.eqb_neq; lia).
    apply Nat.ltb_lt in Hw. rewrite Hw, andb_false_r. reflexivity.
  - intros -> -> t Hcal.
    apply wildcard_day_of_month in H3 as ->.
    apply wildcard_day_of_week in H5 as ->.
    rewrite job_tick_day_switch. unfold day_rule. rewrite Hsize31, Hsize7.
    cbn [Nat.ltb Nat.leb Nat.eqb andb]. rewrite !elem_of_seqZ_set.
    split; [tauto|]. intros (? & ? & ? & ?). repeat (split; [assumption|]). lia.
Qed.

(** ** White space between the fields *)

Lemma Split_six_fields (f0 s1 f1 s2 f2 s3 f3 s4 f4 s5 f5 : string) :
  is_field f0 -> is_field f1 -> is_field f2 ->
  is_field f3 -> is_field f4 -> is_field f5 ->
  is_gap s1 -> is_gap s2 -> is_gap s3 -> is_gap s4 -> is_gap s5 ->
  Split (matchSpaces_ReplaceAll
           (padded EmptyString f0 s1 f1 s2 f2 s3 f3 s4 f4 s5 f5 EmptyString)) " "
  = [f0; f1; f2; f3; f4; f5].
Proof.
  intros F0 F1 F2 F3 F4 F5 G1 G2 G3 G4 G5.
  unfold matchSpaces_ReplaceAll, padded.
  change (EmptyString ++ ?x)%string with x.
  rewrite (replace_spaces_field false f0 _ F0), (replace_spaces_gap s1 _ G1).
  rewrite (replace_spaces_field true f1 _ F1), (replace_spaces_gap s2 _ G2).
  rewrite (replace_spaces_field true f2 _ F2), (replace_spaces_gap s3 _ G3).
  rewrite (replace_spaces_field true f3 _ F3), (replace_spaces_gap s4 _ G4).
  rewrite (replace_spaces_field true f4 _ F4), (replace_spaces_gap s5 _ G5).
  rewrite (replace_spaces_field true f5 _ F5).
  change (replace_spaces false EmptyString) with EmptyString.
  rewrite append_empty_r.
  rewrite (Split_field f0 _ (proj2 F0)), (Split_field f1 _ (proj2 F1)),
    (Split_field f2 _ (proj2 F2)), (Split_field f3 _ (proj2 F3)),
    (Split_field f4 _ (proj2 F4)), (Split_last f5 (proj2 F5)).
  reflexivity.
Qed.

Lemma space_is_gap : is_gap " ".
Proof. split; reflexivity. Qed.

(** X10. Between the six fields any run of white space (spaces, tabs,
    newlines, form feeds, carriage returns) counts as one space: the
    expression splits into exactly its six fields and [parseSchedule]
    returns what it returns for the fields joined by single spaces. *)
Theorem parseSchedule_gaps {value : Type} (fuel : nat)
    (f0 s1 f1 s2 f2 s3 f3 s4 f4 s5 f5 : string) :
  is_field f0 -> is_field f1 -> is_field f2 ->
  is_field f3 -> is_field f4 -> is_field f5 ->
  is_gap s1 -> is_gap s2 -> is_gap s3 -> is_gap s4 -> is_gap s5 ->
  Split (matchSpaces_ReplaceAll
           (padded EmptyString f0 s1 f1 s2 f2 s3 f3 s4 f4 s5 f5 EmptyString)) " "
  = [f0; f1; f2; f3; f4; f5] /\
  parseSchedule (value := value) fuel
    (padded EmptyString f0 s1 f1 s2 f2 s3 f3 s4 f4 s5 f5 EmptyString)
  = parseSchedule fuel
      (padded EmptyString f0 " " f1 " " f2 " " f3 " " f4 " " f5 EmptyString).
Proof.
  intros F0 F1 F2 F3 F4 F5 G1 G2 G3 G4 G5.
  pose proof (Split_six_fields f0 s1 f1 s2 f2 s3 f3 s4 f4 s5 f5
                F0 F1 F2 F3 F4 F5 G1 G2 G3 G4 G5) as Hgaps.
  pose proof (Split_six_fields f0 " " f1 " " f2 " " f3 " " f4 " " f5
                F0 F1 F2 F3 F4 F5 space_is_gap space_is_gap space_is_gap
                space_is_gap space_is_gap) as Hspaces.
  split; [exact Hgaps|].
  unfold parseSchedule. rewrite Hgaps, Hspaces. reflexivity.
Qed.

(** ** The error of the assembler *)

Lemma parse_field_err {value : Type} (p : option (result (gset Z)))
    (set : gset Z -> job value) (k : job value -> option (job value * option error))
    (j : job value) (e : error) :
  parse_field value p set k = Some (j, Some e) ->
  p = Some (Err e) \/ exists r, p = Some (Ok r) /\ k (set r) = Some (j, Some e).
Proof.
  unfold parse_field. destruct p as [[r|e']|]; [| |discriminate].
  - intros Hk. right. exists r. split; [reflexivity|exact Hk].
  - intros [= _ ->]. left. reflexivity.
Qed.

(** X11. When [parseSchedule] returns an error, either the expression does
    not split into six parts and the error is the field-count error, with
    the zero job, or the error is the one [parsePart] returned for the
    first field, from the left, that it rejects: every field before it was
    accepted. *)
Theorem parseSchedule_error {value : Type} (fuel : nat) (s : string)
    (j : job value) (e : error) :
  parseSchedule fuel s = Some (j, Some e) ->
  (length (Split (matchSpaces_ReplaceAll s) " ") <> 6%nat /\
   e = ErrComponents /\ j = zero_job) \/
  (length (Split (matchSpaces_ReplaceAll s) " ") = 6%nat /\
   exists (k : nat) (p : string) (lo hi : Z),
     Split (matchSpaces_ReplaceAll s) " " !! k = Some p /\
     field_bounds !! k = Some (lo, hi) /\
     parsePart fuel p lo hi = Some (Err e) /\
     forall (i : nat) (q : string) (lo' hi' : Z),
       (i < k)%nat ->
       Split (matchSpaces_ReplaceAll s) " " !! i = Some q ->
       field_bounds !! i = Some (lo', hi') ->
       exists r, parsePart fuel q lo' hi' = Some (Ok r)).
Proof.
  unfold parseSchedule. intros Hparse.
  destruct (Split (matchSpaces_ReplaceAll s) " ")
    as [|p0 [|p1 [|p2 [|p3 [|p4 [|p5 [|p6 rest]]]]]]];
    try (left; injection Hparse as <- <-; split; [simpl; lia|split; reflexivity]).
  right. split; [reflexivity|].
  apply parse_field_err in Hparse as [H0|(r0 & H0 & Hparse)].
  { exists 0%nat, p0, 0, 59. repeat (split; [first [reflexivity|exact H0]|]).
    intros i q lo' hi' Hi. lia. }
  apply parse_field_err in Hparse as [H1|(r1 & H1 & Hparse)].
  { exists 1%nat, p1, 0, 59. repeat (split; [first [reflexivity|exact H1]|]).
    intros [|i] q lo' hi' Hi; [|lia]. intros [= <-] [= <- <-]. eauto. }
  apply parse_field_err in Hparse as [H2|(r2 & H2 & Hparse)].
  { exists 2%nat, p2, 0, 23. repeat (split; [first [reflexivity|exact H2]|]).
    intros [|[|i]] q lo' hi' Hi; [| |lia]; intros [= <-] [= <- <-]; eauto. }
  apply parse_field_err in Hparse as [H3|(r3 & H3 & Hparse)].
  { exists 3%nat, p3, 1, 31. repeat (split; [first [reflexivity|exact H3]|]).
    intros [|[|[|i]]] q lo' hi' Hi; [| | |lia]; intros [= <-] [= <- <-]; eauto. }
  apply parse_field_err in Hparse as [H4|(r4 & H4 & Hparse)].
  { exists 4%nat, p4, 1, 12. repeat (split; [first [reflexivity|exact H4]|]).
    intros [|[|[|[|i]]]] q lo' hi' Hi; [| | | |lia];
      intros [= <-] [= <- <-]; eauto. }
  apply parse_field_err in Hparse as [H5|(r5 & H5 & Hparse)].
  { exists 5%nat, p5, 0, 6. repeat (split; [first [reflexivity|exact H5]|]).
    intros [|[|[|[|[|i]]]]] q lo' hi' Hi; [| | | | |lia];
      intros [= <-] [= <- <-]; eauto. }
  discriminate.
Qed.

(** ** Lists of terms *)

(** The members a finished loop has added, when no addition overflows. *)
Lemma for_loop_members (fuel : nat) (i hi n : Z) (r r' : gset Z) :
  1 <= n -> MinInt <= i -> hi + n <= MaxInt ->
  for_loop fuel i hi n r = Some r' ->
  forall x, x ∈ r' <-> x ∈ r \/ (i <= x <= hi /\ (n | x - i)).
Proof.
  intros Hn Hlo Hhi Hrun.
  destruct (for_loop_progression i hi n r Hn Hlo Hhi) as (r2 & Hall & Hmem).
  pose (big := Nat.max fuel (S (Z.to_nat (hi - i + 1)))).
  apply (for_loop_mono _ big) in Hrun; [|lia].
  rewrite (Hall big) in Hrun by lia. injection Hrun as <-. exact Hmem.
Qed.

Lemma parse_terms_members (fuel : nat) (parts : list string) (s : string)
    (min max : Z) (r0 r : gset Z) :
  MinInt <= min -> max < MaxInt ->
  parse_terms fuel parts s min max r0 = Some (Ok r) ->
  forall x, x ∈ r <-> x ∈ r0 \/ exists t, t ∈ parts /\ term_covers t x.
Proof.
  intros Hmin Hmax. revert r0.
  induction parts as [|p parts IH]; intros r0; cbn [parse_terms].
  - destruct (Z.of_nat (size r0) =? 0); [discriminate|]. intros [= <-] x.
    split; [auto|]. intros [Hx|(t & Ht & _)]; [exact Hx|].
    apply elem_of_nil in Ht. contradiction.
  - destruct (matchRange p) as [[a b]|] eqn:Hrange.
    + destruct (Z.ltb_spec (fst (Atoi a)) min) as [?|Hlo]; [discriminate|].
      destruct (Z.gtb_spec (fst (Atoi b)) max) as [?|Hhi]; [discriminate|].
      cbn [orb].
      destruct (for_loop fuel (fst (Atoi a)) (fst (Atoi b)) 1 r0) as [r1|] eqn:Hrun;
        [|discriminate].
      intros Hrest x. rewrite (IH _ Hrest x).
      rewrite (for_loop_members fuel (fst (Atoi a)) (fst (Atoi b)) 1 r0 r1
                 ltac:(lia) ltac:(lia) ltac:(lia) Hrun x).
      split.
      * intros [[Hx|[Hx _]]|(t & Ht & Hc)]; [left; exact Hx| |].
        -- right. exists p. split; [apply elem_of_cons; left; reflexivity|].
           unfold term_covers. rewrite Hrange. exact Hx.
        -- right. exists t. split; [apply elem_of_cons; right; exact Ht|exact Hc].
      * intros [Hx|(t & [->|Ht]%elem_of_cons & Hc)]; [left; left; exact Hx| |].
        -- left. right. unfold term_covers in Hc. rewrite Hrange in Hc.
           split; [exact Hc|apply Z.divide_1_l].
        -- right. exists t. split; assumption.
    + destruct (Atoi p) as [i [|]] eqn:Hint; [|discriminate].
      destruct ((i <? min) || (i >? max)); [discriminate|].
      intros Hrest x. rewrite (IH _ Hrest x), elem_of_union, elem_of_singleton.
      split.
      * intros [[->|Hx]|(t & Ht & Hc)]; [|left; exact Hx|].
        -- right. exists p. split; [apply elem_of_cons; left; reflexivity|].
           unfold term_covers. rewrite Hrange. exact Hint.
        -- right. exists t. split; [apply elem_of_cons; right; exact Ht|exact Hc].
      * intros [Hx|(t & [->|Ht]%elem_of_cons & Hc)]; [left; right; exact Hx| |].
        -- left. left. unfold term_covers in Hc. rewrite Hrange, Hint in Hc.
           congruence.
        -- right. exists t. split; assumption.
Qed.

(** X12. For a field that is neither the wildcard nor a step term, a
    returned set holds exactly the integers that some term of the
    comma-separated list contributes: those of its range low-high, or its
    one integer. Order and repetition of the terms do not matter. *)
Theorem parsePart_list_spec (fuel : nat) (s : string) (min max : Z) (r : gset Z) :
  matchN s = None -> String.eqb s "*" = false ->
  MinInt <= min -> max < MaxInt ->
  parsePart fuel s min max = Some (Ok r) ->
  forall x, x ∈ r <-> exists t, t ∈ Split s "," /\ term_covers t x.
Proof.
  intros Hm Hstar Hmin Hmax. unfold parsePart. rewrite Hstar, Hm.
  intros Hrun x. rewrite (parse_terms_members _ _ _ _ _ _ _ Hmin Hmax Hrun x).
  rewrite elem_of_empty. tauto.
Qed.

Lemma parse_terms_refused (fuel : nat) (parts : list string) (s : string)
    (min max : Z) (r0 r : gset Z) :
  (exists t, t ∈ parts /\ term_refused t min max) ->
  parse_terms fuel parts s min max r0 <> Some (Ok r).
Proof.
  revert r0. induction parts as [|p parts IH]; intros r0 (t & Ht & Hout).
  - apply elem_of_nil in Ht. contradiction.
  - cbn [parse_terms]. apply elem_of_cons in Ht as [->|Ht].
    + unfold term_refused in Hout.
      destruct (matchRange p) as [[a b]|].
      * replace ((fst (Atoi a) <? min) || (fst (Atoi b) >? max)) with true;
          [discriminate|].
        symmetry. apply orb_true_iff. rewrite Z.ltb_lt, Z.gtb_gt. lia.
      * destruct (Atoi p) as [i [|]]; [|discriminate].
        specialize (Hout eq_refl). cbn [fst] in Hout.
        replace ((i <? min) || (i >? max)) with true; [discriminate|].
        symmetry. apply orb_true_iff. rewrite Z.ltb_lt, Z.gtb_gt. lia.
    + assert (Hrest : exists t, t ∈ parts /\ term_refused t min max) by eauto.
      destruct (matchRange p) as [[a b]|].
      * destruct ((fst (Atoi a) <? min) || (fst (Atoi b) >? max)); [discriminate|].
        destruct (for_loop fuel _ _ 1 r0) as [r1|]; [|discriminate].
        apply IH. exact Hrest.
      * destruct (Atoi p) as [i [|]]; [|discriminate].
        destruct ((i <? min) || (i >? max)); [discriminate|].
        apply IH. exact Hrest.
Qed.

(** X13. In a list, one term that is refused is enough for the field to be
    refused, whatever the other terms are and wherever the term stands: a
    term that is neither an integer nor a range (an empty term, letters),
    an integer below [min] or above [max], a range whose low end is below
    [min] or whose high end is above [max]. No set is returned. *)
Theorem parsePart_list_refused (fuel : nat) (s : string) (min max : Z)
    (r : gset Z) :
  matchN s = None -> String.eqb s "*" = false ->
  (exists t, t ∈ Split s "," /\ term_refused t min max) ->
  parsePart fuel s min max <> Some (Ok r).
Proof.
  intros Hm Hstar Hout. unfold parsePart. rewrite Hstar, Hm.
  apply parse_terms_refused. exact Hout.
Qed.

(** ** What follows a step term *)

Lemma matchN_here_no_slash (s : string) :
  no_slash s = true -> matchN_here s = None.
Proof.
  induction s as [|c s IH]; [reflexivity|].
  cbn [no_slash]. intros [Hc Hs]%andb_prop.
  assert (Hsd : slash_digits (String c s) = None) by (revert Hc; by_ascii c).
  cbn [matchN_here]. rewrite (IH Hs), Hsd.
  destruct (is_newline c); reflexivity.
Qed.

Lemma no_slash_digits_app (d suffix : string) :
  all_digits d = true -> no_slash suffix = true -> no_slash (d ++ suffix) = true.
Proof.
  intros Hd Hs. induction d as [|c d IH]; [exact Hs|].
  rewrite append_cons. simpl in Hd |- *. apply andb_prop in Hd as [Hc Hd].
  rewrite (IH Hd), andb_true_r. revert Hc. by_ascii c.
Qed.

Lemma span_digits_app (d suffix : string) :
  all_digits d = true -> digit_free_head suffix = true ->
  span_digits (d ++ suffix) = (d, suffix).
Proof.
  intros Hd Hs. induction d as [|c d IH].
  - change (EmptyString ++ suffix)%string with suffix.
    destruct suffix as [|c t]; [reflexivity|].
    simpl in Hs |- *. apply negb_true_iff in Hs. rewrite Hs. reflexivity.
  - rewrite append_cons. simpl in Hd |- *. apply andb_prop in Hd as [Hc Hd].
    rewrite Hc, (IH Hd). reflexivity.
Qed.

Lemma matchN_here_no_slash_all (s : string) :
  no_slash s = true -> matchN s = None.
Proof.
  induction s as [|c s IH]; [reflexivity|].
  intros Hs. cbn [matchN]. rewrite (matchN_here_no_slash _ Hs).
  apply IH. cbn [no_slash] in Hs. apply andb_prop in Hs. tauto.
Qed.

Lemma matchN_of_here (s : string) (m : string * string) :
  matchN_here s = Some m -> matchN s = Some m.
Proof. intros Hhere. destruct s; cbn [matchN]; rewrite Hhere; reflexivity. Qed.

Lemma matchN_step_suffix (base d suffix : string) :
  plain base = true -> all_digits d = true -> nonempty d = true ->
  no_slash suffix = true -> digit_free_head suffix = true ->
  matchN (base ++ String "/" (d ++ suffix)) = Some (base, d).
Proof.
  intros Hb Hd Hne Hs Hh. apply matchN_of_here.
  induction base as [|c base IH].
  - change (EmptyString ++ ?x)%string with x.
    assert (Hsd : slash_digits (String "/" (d ++ suffix)) = Some d).
    { cbn [slash_digits]. rewrite (span_digits_app _ _ Hd Hh), Hne. reflexivity. }
    cbn [matchN_here].
    rewrite (matchN_here_no_slash _ (no_slash_digits_app _ _ Hd Hs)), Hsd.
    reflexivity.
  - simpl in Hb. apply andb_prop in Hb as [[Hnl _]%andb_prop Hb].
    rewrite append_cons. cbn [matchN_here]. rewrite (IH Hb).
    apply negb_true_iff in Hnl. rewrite Hnl. reflexivity.
Qed.

Lemma slash_not_star (base rest : string) :
  String.eqb (base ++ String "/" rest) "*" = false.
Proof.
  destruct base as [|c base]; [reflexivity|].
  rewrite append_cons. simpl.
  destruct base as [|c' base]; [|rewrite append_cons]; simpl;
    apply andb_false_r.
Qed.

(** X14. What follows the digits of a step term is not read: after a step
    term with any base, a tail that holds no slash and does not go on with
    a digit (a comma and more terms, letters) changes neither the set that
    is returned nor whether [parsePart] returns. *)
Theorem parsePart_step_tail_ignored (fuel : nat) (base d tail : string)
    (min max : Z) :
  plain base = true -> all_digits d = true -> nonempty d = true ->
  no_slash tail = true -> digit_free_head tail = true ->
  (forall r, parsePart fuel (base ++ String "/" (d ++ tail)) min max = Some (Ok r)
             <-> parsePart fuel (base ++ String "/" d) min max = Some (Ok r)) /\
  (parsePart fuel (base ++ String "/" (d ++ tail)) min max = None
   <-> parsePart fuel (base ++ String "/" d) min max = None).
Proof.
  intros Hb Hd Hne Hs Hh. unfold parsePart.
  rewrite !slash_not_star.
  rewrite (matchN_step_suffix _ _ _ Hb Hd Hne Hs Hh), (matchN_step _ _ Hb Hd Hne).
  destruct (nonempty base && negb (String.eqb base "*")).
  - destruct (matchRange base) as [[a b]|].
    + destruct ((fst (Atoi a) <? min) || (fst (Atoi b) >? max)).
      * split; [intros r|]; split; discriminate.
      * split; [intros r|]; reflexivity.
    + split; [intros r|]; split; discriminate.
  - split; [intros r|]; reflexivity.
Qed.

(** Every fifteenth minute, followed by a list that is not read. *)
Lemma parsePart_step_tail_ignored_witness :
  (forall r, parsePart 100 "*/15,7" 0 59 = Some (Ok r)
             <-> parsePart 100 "*/15" 0 59 = Some (Ok r)) /\
  (parsePart 100 "*/15,7" 0 59 = None <-> parsePart 100 "*/15" 0 59 = None).
Proof.
  apply (parsePart_step_tail_ignored 100 "*" "15" ",7" 0 59); reflexivity.
Defined.

(** ** The cron table under its operations *)

Section Table.

Variable value : Type.
Variable rtype : Type.
Context `{EqDecision rtype}.
Variable Ticker : Type.
Variable TypeOf : value -> rtype.
Variable KindOf : rtype -> Kind.
Variable Ins : rtype -> list rtype.
Variable Implements : rtype -> rtype -> bool.
Variable Time : Type.
Variable Second : Time -> Z.
Variable Minute : Time -> Z.
Variable Hour : Time -> Z.
Variable Day : Time -> Z.
Variable Month : Time -> Z.
Variable Weekday : Time -> Z.


(** The two ways [AddJob] ends: the table as it was, or the checked job
    appended. *)
Lemma AddJob_cases (fuel : nat) (c c' : Crontab value Ticker)
    (schedule : string) (fn : option value) (args : list (option value))
    (o : outcome) :
  AddJob TypeOf KindOf Ins Implements fuel c schedule fn args = Some (o, c') ->
  (o <> Returned None /\ c' = c) \/
  (o = Returned None /\
   exists j f, parseSchedule fuel schedule = Some (j, None) /\
     fn = Some f /\ KindOf (TypeOf f) = Func /\
     length args = length (Ins (TypeOf f)) /\
     check_params TypeOf KindOf Ins Implements
       (length (Ins (TypeOf f))) 0 (TypeOf f) args = Returned None /\
     c' = mkCrontab (ticker c) (jobs c ++ [set_fn_args j fn args])).
Proof.
  unfold AddJob. intros Hadd.
  destruct (parseSchedule fuel schedule) as [[j [err|]]|]; [| |discriminate].
  - injection Hadd as <- <-. left. split; [discriminate|reflexivity].
  - destruct fn as [f|]; [|injection Hadd as <- <-; left; split; [discriminate|reflexivity]].
    destruct (bool_decide_reflect (KindOf (TypeOf f) = Func)) as [Hfunc|_];
      cbn [negb] in Hadd;
      [|injection Hadd as <- <-; left; split; [discriminate|reflexivity]].
    destruct (Nat.eqb_spec (length args) (length (Ins (TypeOf f)))) as [Hlen|_];
      cbn [negb] in Hadd;
      [|injection Hadd as <- <-; left; split; [discriminate|reflexivity]].
    destruct (check_params _ _ _ _ _ _ _ _) as [[e|]|] eqn:Hcheck;
      injection Hadd as <- <-.
    + left. split; [discriminate|reflexivity].
    + right. split; [reflexivity|]. exists j, f. repeat (split; [auto|]). reflexivity.
    + left. split; [discriminate|reflexivity].
Qed.

(** The parameter loop passes only when every argument it looks at fits. *)
Lemma check_params_fits (n i : nat) (fnType : rtype) (args : list (option value)) :
  check_params TypeOf KindOf Ins Implements n i fnType args = Returned None ->
  forall k a t1, (i <= k < i + n)%nat ->
    args !! k = Some a -> Ins fnType !! k = Some t1 ->
    arg_fits TypeOf KindOf Implements a t1.
Proof.
  revert i. induction n as [|n IH]; intros i Hcheck k a t1 Hk Ha Ht; [lia|].
  cbn [check_params] in Hcheck.
  destruct (args !! i) as [a0|] eqn:Ha0; [|discriminate].
  destruct (Ins fnType !! i) as [t0|] eqn:Ht0; [|discriminate].
  assert (Hrest : check_params TypeOf KindOf Ins Implements n (S i) fnType args
                  = Returned None -> (i < k)%nat ->
                  arg_fits TypeOf KindOf Implements a t1).
  { intros Hc Hlt. apply (IH (S i) Hc k a t1); [lia|exact Ha|exact Ht]. }
  destruct (decide (k = i)) as [->|Hne].
  - rewrite Ha0 in Ha. rewrite Ht0 in Ht. injection Ha as ->. injection Ht as ->.
    destruct (decide (Some t1 = TypeOf <$> a)) as [Heq|Hneq].
    + destruct a as [v|]; [|discriminate]. injection Heq as ->.
      exists v. split; [reflexivity|left; reflexivity].
    + destruct (bool_decide_reflect (KindOf t1 = Interface)) as [Hi|_];
        cbn [negb] in Hcheck; [|discriminate].
      destruct a as [v|]; [|discriminate]. cbn in Hcheck.
      destruct (Implements (TypeOf v) t1) eqn:Himpl; [|discriminate].
      exists v. split; [reflexivity|right; split; [exact Hi|exact Himpl]].
  - assert (Hlt : (i < k)%nat) by lia. clear Hne.
    destruct (decide (Some t0 = TypeOf <$> a0)); [exact (Hrest Hcheck Hlt)|].
    destruct (negb (bool_decide (KindOf t0 = Interface))); [discriminate|].
    destruct (TypeOf <$> a0) as [t2|]; [|discriminate].
    destruct (Implements t2 t0); [exact (Hrest Hcheck Hlt)|discriminate].
Qed.

Lemma set_fn_args_callable (j : job value) (f : value) (args : list (option value)) :
  KindOf (TypeOf f) = Func -> length args = length (Ins (TypeOf f)) ->
  check_params TypeOf KindOf Ins Implements
    (length (Ins (TypeOf f))) 0 (TypeOf f) args = Returned None ->
  (job_callable TypeOf KindOf Ins Implements) (set_fn_args j (Some f) args).
Proof.
  intros Hfunc Hlen Hcheck. exists f. cbn [set_fn_args job_fn job_args].
  split; [reflexivity|]. split; [exact Hfunc|].
  apply Forall2_same_length_lookup_2; [exact Hlen|].
  intros k a t1 Ha Ht.
  apply (check_params_fits _ _ _ _ Hcheck k a t1); [|exact Ha|exact Ht].
  apply lookup_lt_Some in Ht. lia.
Qed.

Lemma AddJob_callable (fuel : nat) (c c' : Crontab value Ticker)
    (schedule : string) (fn : option value) (args : list (option value))
    (o : outcome) :
  Forall (job_callable TypeOf KindOf Ins Implements) (jobs c) ->
  AddJob TypeOf KindOf Ins Implements fuel c schedule fn args = Some (o, c') ->
  Forall (job_callable TypeOf KindOf Ins Implements) (jobs c').
Proof.
  intros Hinv Hadd.
  destruct (AddJob_cases _ _ _ _ _ _ _ Hadd)
    as [[_ ->]|[_ (j & f & _ & -> & Hfunc & Hlen & Hcheck & ->)]]; [exact Hinv|].
  cbn [jobs]. apply Forall_app. split; [exact Hinv|].
  apply Forall_cons. split; [|apply Forall_nil; exact I].
  apply set_fn_args_callable; assumption.
Qed.

(** X15. Every job in the table can be called with its arguments: its
    (job_callable TypeOf KindOf Ins Implements) is a function, it has one argument for each parameter, no
    argument is nil, and each argument has the type of its parameter or a
    type that implements it. Every call of [AddJob], [MustAddJob] and
    [Clear] keeps this true, whether it returns or panics. *)
Theorem apply_ops_callable (fuel : nat) (os : list (op value))
    (c c' : Crontab value Ticker) :
  Forall (job_callable TypeOf KindOf Ins Implements) (jobs c) ->
  apply_ops TypeOf KindOf Ins Implements fuel c os = Some c' ->
  Forall (job_callable TypeOf KindOf Ins Implements) (jobs c').
Proof.
  revert c. induction os as [|o os IH]; intros c Hinv; cbn [apply_ops].
  - intros [= <-]. exact Hinv.
  - destruct (apply_op TypeOf KindOf Ins Implements fuel c o) as [c1|] eqn:Hop;
      [|discriminate].
    apply IH. destruct o as [schedule fn args|schedule fn args|];
      cbn [apply_op] in Hop.
    + destruct (AddJob TypeOf KindOf Ins Implements fuel c schedule fn args) as [[o1 c2]|] eqn:Hadd;
        [|discriminate].
      injection Hop as <-. exact (AddJob_callable _ _ _ _ _ _ _ Hinv Hadd).
    + unfold MustAddJob in Hop.
      destruct (AddJob TypeOf KindOf Ins Implements fuel c schedule fn args) as [[o1 c2]|] eqn:Hadd;
        [|discriminate].
      pose proof (AddJob_callable _ _ _ _ _ _ _ Hinv Hadd) as Hinv2.
      destruct o1 as [[e|]|]; injection Hop as <-; exact Hinv2.
    + injection Hop as <-. apply Forall_nil. exact I.
Qed.

(** X16. [MustAddJob] returns exactly when [AddJob] returns nil, and the
    table is then the one [AddJob] leaves, with the job appended; it panics
    with the error of [AddJob] exactly when [AddJob] returns that error,
    and a call that panics leaves the table as it was. *)
Theorem MustAddJob_spec (fuel : nat) (c c' : Crontab value Ticker)
    (schedule : string) (fn : option value) (args : list (option value))
    (o : must_outcome) :
  MustAddJob TypeOf KindOf Ins Implements fuel c schedule fn args = Some (o, c') ->
  (o = Done <-> AddJob TypeOf KindOf Ins Implements fuel c schedule fn args = Some (Returned None, c')) /\
  (forall e, o = PanicErr e <->
             AddJob TypeOf KindOf Ins Implements fuel c schedule fn args = Some (Returned (Some e), c')) /\
  (o = Done -> exists j, parseSchedule fuel schedule = Some (j, None) /\
                 jobs c' = (jobs c ++ [set_fn_args j fn args])%list) /\
  (o <> Done -> c' = c).
Proof.
  unfold MustAddJob. intros Hmust.
  destruct (AddJob TypeOf KindOf Ins Implements fuel c schedule fn args) as [[o1 c1]|] eqn:Hadd; [|discriminate].
  destruct (AddJob_cases _ _ _ _ _ _ _ Hadd)
    as [[Hne ->]|[-> (j & f & Hj & -> & _ & _ & _ & ->)]].
  - destruct o1 as [[e|]|]; [| contradiction |]; injection Hmust as <- <-.
    + split; [split; discriminate|]. split.
      * intros e'. split; [intros [= ->]; reflexivity|intros [= ->]; reflexivity].
      * split; [discriminate|reflexivity].
    + split; [split; discriminate|]. split.
      * intros e'. split; discriminate.
      * split; [discriminate|reflexivity].
  - injection Hmust as <- <-. split; [split; reflexivity|]. split.
    + intros e. split; discriminate.
    + split; [|contradiction]. intros _. exists j. split; [exact Hj|reflexivity].
Qed.

Lemma launch_due_app (tk : tick) (js ks : list (job value)) :
  launch_due tk (js ++ ks) = (launch_due tk js ++ launch_due tk ks)%list.
Proof.
  induction js as [|j js IH]; [reflexivity|].
  cbn [launch_due app]. rewrite IH. destruct (job_tick j tk); reflexivity.
Qed.

Lemma launch_all_id (js : list (job value)) : launch_all js = js.
Proof. induction js as [|j js IH]; [reflexivity|]. cbn. rewrite IH. reflexivity. Qed.

(** X17. A registration shows at the next firings as follows. After an
    [AddJob] that returned nil, the scheduled run at any time launches what
    it launched before, then the new job if the parsed schedule is due
    at that time, and [RunAll] launches the old jobs, then the new one.
    After an [AddJob] that returned an error or panicked, both launch what
    they launched before. *)
Theorem AddJob_then_run (fuel : nat) (c c' : Crontab value Ticker)
    (schedule : string) (fn : option value) (args : list (option value))
    (o : outcome) :
  AddJob TypeOf KindOf Ins Implements fuel c schedule fn args = Some (o, c') ->
  (o = Returned None ->
     exists j, parseSchedule fuel schedule = Some (j, None) /\
       (forall t, runScheduled Second Minute Hour Day Month Weekday c' t
                  = (runScheduled Second Minute Hour Day Month Weekday c t ++
                     (if job_tick j (getTick Second Minute Hour Day Month Weekday t)
                      then [set_fn_args j fn args] else []))%list) /\
       RunAll c' = (RunAll c ++ [set_fn_args j fn args])%list) /\
  (o <> Returned None ->
     (forall t, runScheduled Second Minute Hour Day Month Weekday c' t
                = runScheduled Second Minute Hour Day Month Weekday c t) /\
     RunAll c' = RunAll c).
Proof.
  intros Hadd.
  destruct (AddJob_cases _ _ _ _ _ _ _ Hadd)
    as [[Hne ->]|[-> (j & f & Hj & -> & _ & _ & _ & ->)]].
  - split; [contradiction|]. intros _. split; reflexivity.
  - split; [|contradiction]. intros _. exists j. split; [exact Hj|]. split.
    + intros t. unfold runScheduled. cbn [jobs]. rewrite launch_due_app.
      (* the tick test does not read the callable nor its arguments *)
      reflexivity.
    + unfold RunAll. cbn [jobs]. rewrite !launch_all_id. reflexivity.
Qed.

(** X18. The scheduled run launches exactly the jobs of the table that are
    due at the time, in the order of the table and as often as they stand
    in it: what it launches is a sublist of what [RunAll] launches, which
    is the whole table; after [Clear] neither launches anything. *)
Theorem runScheduled_launches (c : Crontab value Ticker) (t : Time) :
  (forall j, j ∈ runScheduled Second Minute Hour Day Month Weekday c t <->
             j ∈ jobs c /\ job_tick j (getTick Second Minute Hour Day Month Weekday t) = true) /\
  runScheduled Second Minute Hour Day Month Weekday c t `sublist_of` RunAll c /\
  RunAll c = jobs c /\
  runScheduled Second Minute Hour Day Month Weekday (Clear c) t = [] /\ RunAll (Clear c) = [].
Proof.
  unfold runScheduled, RunAll. rewrite launch_all_id.
  split; [|split; [|split; [reflexivity|split; reflexivity]]].
  - intros j. induction (jobs c) as [|k ks IH]; cbn [launch_due].
    + split; [intros Hin|intros [Hin _]]; apply elem_of_nil in Hin; contradiction.
    + destruct (job_tick k (getTick Second Minute Hour Day Month Weekday t)) eqn:Hk.
      * rewrite !elem_of_cons, IH.
        split; [intros [->|[? ?]]; auto|intros [[->|?] ?]; auto].
      * rewrite IH, elem_of_cons.
        split; [intros [? ?]; auto|intros [[->|?] ?]; [congruence|auto]].
  - induction (jobs c) as [|k ks IH]; cbn [launch_due]; [apply sublist_nil_l|].
    destruct (job_tick k (getTick Second Minute Hour Day Month Weekday t)).
    + apply sublist_skip. exact IH.
    + apply sublist_cons. exact IH.
Qed.

End Table.

(** ** Instances of the statements on schedules and tables *)

(** The first day of every month at noon. *)
Lemma parseSchedule_due_witness :
  parseSchedule 100 "0 0 12 1 * *" = Some (job_0_0_12_1, None) /\
  exists (p0 p1 p2 p3 p4 p5 : string) (r0 r1 r2 d r4 w : gset Z),
    Split (matchSpaces_ReplaceAll "0 0 12 1 * *") " " = [p0; p1; p2; p3; p4; p5] /\
    parsePart 100 p0 0 59 = Some (Ok r0) /\
    parsePart 100 p1 0 59 = Some (Ok r1) /\
    parsePart 100 p2 0 23 = Some (Ok r2) /\
    parsePart 100 p3 1 31 = Some (Ok d) /\
    parsePart 100 p4 1 12 = Some (Ok r4) /\
    parsePart 100 p5 0 6 = Some (Ok w) /\
    forall t : tick,
      job_tick job_0_0_12_1 t = true <->
      tick_second t ∈ r0 /\ tick_min t ∈ r1 /\ tick_hour t ∈ r2 /\
      tick_month t ∈ r4 /\ day_rule d w (tick_day t) (tick_dayOfWeek t).
Proof.
  split; [vm_compute; reflexivity|].
  apply (parseSchedule_due 100 "0 0 12 1 * *" job_0_0_12_1).
  vm_compute. reflexivity.
Defined.

(** Midnight on Mondays and Tuesdays: the day of month is a wildcard. *)
Lemma parseSchedule_day_wildcard_witness :
  parseSchedule 100 "0 0 0 * * 1,2" = Some (job_weekdays, None) /\
  exists (p0 p1 p2 p3 p4 p5 : string) (r0 r1 r2 d r4 w : gset Z),
    Split (matchSpaces_ReplaceAll "0 0 0 * * 1,2") " " = [p0; p1; p2; p3; p4; p5] /\
    parsePart 100 p0 0 59 = Some (Ok r0) /\
    parsePart 100 p1 0 59 = Some (Ok r1) /\
    parsePart 100 p2 0 23 = Some (Ok r2) /\
    parsePart 100 p3 1 31 = Some (Ok d) /\
    parsePart 100 p4 1 12 = Some (Ok r4) /\
    parsePart 100 p5 0 6 = Some (Ok w) /\
    (p5 = "*" -> (size d < 31)%nat -> forall t : tick,
       job_tick job_weekdays t = true <->
       tick_second t ∈ r0 /\ tick_min t ∈ r1 /\ tick_hour t ∈ r2 /\
       tick_month t ∈ r4 /\ tick_day t ∈ d) /\
    (p3 = "*" -> (size w < 7)%nat -> forall t : tick,
       job_tick job_weekdays t = true <->
       tick_second t ∈ r0 /\ tick_min t ∈ r1 /\ tick_hour t ∈ r2 /\
       tick_month t ∈ r4 /\ tick_dayOfWeek t ∈ w) /\
    (p3 = "*" -> p5 = "*" -> forall t : tick,
       1 <= tick_day t <= 31 \/ 0 <= tick_dayOfWeek t <= 6 ->
       (job_tick job_weekdays t = true <->
        tick_second t ∈ r0 /\ tick_min t ∈ r1 /\ tick_hour t ∈ r2 /\
        tick_month t ∈ r4)).
Proof.
  split; [vm_compute; reflexivity|].
  apply (parseSchedule_day_wildcard 100 "0 0 0 * * 1,2" job_weekdays).
  vm_compute. reflexivity.
Defined.

(** A tab, two spaces and a line break between the fields. *)
Lemma parseSchedule_gaps_witness :
  Split (matchSpaces_ReplaceAll
           (padded EmptyString "0" tab_gap "0" "  " "12" crlf_gap "1" " " "*"
                   " " "*" EmptyString)) " "
  = ["0"; "0"; "12"; "1"; "*"; "*"] /\
  parseSchedule (value := unit) 100
    (padded EmptyString "0" tab_gap "0" "  " "12" crlf_gap "1" " " "*"
            " " "*" EmptyString)
  = parseSchedule 100
      (padded EmptyString "0" " " "0" " " "12" " " "1" " " "*" " " "*" EmptyString).
Proof.
  apply (parseSchedule_gaps (value := unit) 100
           "0" tab_gap "0" "  " "12" crlf_gap "1" " " "*" " " "*");
    split; reflexivity.
Defined.

(** An hour of 25: the third field is the first that is rejected. *)
Lemma parseSchedule_error_witness :
  parseSchedule 100 "0 0 25 * * *"
  = Some (job_bad_hour, Some (ErrOutOfRangeInt 25 "25" 0 23)) /\
  ((length (Split (matchSpaces_ReplaceAll "0 0 25 * * *") " ") <> 6%nat /\
    ErrOutOfRangeInt 25 "25" 0 23 = ErrComponents /\ job_bad_hour = zero_job) \/
   (length (Split (matchSpaces_ReplaceAll "0 0 25 * * *") " ") = 6%nat /\
    exists (k : nat) (p : string) (lo hi : Z),
      Split (matchSpaces_ReplaceAll "0 0 25 * * *") " " !! k = Some p /\
      field_bounds !! k = Some (lo, hi) /\
      parsePart 100 p lo hi = Some (Err (ErrOutOfRangeInt 25 "25" 0 23)) /\
      forall (i : nat) (q : string) (lo' hi' : Z),
        (i < k)%nat ->
        Split (matchSpaces_ReplaceAll "0 0 25 * * *") " " !! i = Some q ->
        field_bounds !! i = Some (lo', hi') ->
        exists r, parsePart 100 q lo' hi' = Some (Ok r))).
Proof.
  split; [vm_compute; reflexivity|].
  apply (parseSchedule_error 100 "0 0 25 * * *" job_bad_hour).
  vm_compute. reflexivity.
Defined.

(** A range and an integer. *)
Lemma parsePart_list_spec_witness :
  parsePart 100 "1-3,10" 0 59 = Some (Ok (list_to_set [1; 2; 3; 10])) /\
  (forall x, x ∈ (list_to_set [1; 2; 3; 10] : gset Z) <->
             exists t, t ∈ Split "1-3,10" "," /\ term_covers t x).
Proof.
  split; [vm_compute; reflexivity|].
  apply (parsePart_list_spec 100 "1-3,10" 0 59);
    [reflexivity|reflexivity|exact MinInt_le_0|reflexivity|vm_compute; reflexivity].
Defined.

(** A minute of 70 after a good one, and an empty term. *)
Lemma parsePart_list_refused_witness :
  term_refused "70" 0 59 /\ parsePart 100 "10,70" 0 59 <> Some (Ok ∅) /\
  term_refused EmptyString 0 59 /\ parsePart 100 "10," 0 59 <> Some (Ok ∅).
Proof.
  assert (Hout : term_refused "70" 0 59) by (intros _; right; reflexivity).
  assert (Hempty : term_refused EmptyString 0 59) by (intros Hok; discriminate Hok).
  split; [exact Hout|]. split; [|split; [exact Hempty|]].
  - apply (parsePart_list_refused 100 "10,70" 0 59); [reflexivity|reflexivity|].
    exists "70". split; [|exact Hout].
    apply elem_of_cons. right. apply elem_of_cons. left. reflexivity.
  - apply (parsePart_list_refused 100 "10," 0 59); [reflexivity|reflexivity|].
    exists EmptyString. split; [|exact Hempty].
    apply elem_of_cons. right. apply elem_of_cons. left. reflexivity.
Defined.

(** The registration of the documentation, then two calls that panic. *)
Lemma apply_ops_callable_witness :
  apply_ops ex_TypeOf ex_KindOf ex_Ins ex_Implements 100 (mkCrontab tt []) ex_ops
  = Some (mkCrontab tt [ex_job]) /\
  Forall (job_callable ex_TypeOf ex_KindOf ex_Ins ex_Implements)
         (jobs (mkCrontab tt [ex_job])).
Proof.
  split; [vm_compute; reflexivity|].
  apply (apply_ops_callable ex_value ex_type unit
           ex_TypeOf ex_KindOf ex_Ins ex_Implements 100 ex_ops (mkCrontab tt []));
    [apply Forall_nil; exact I|vm_compute; reflexivity].
Defined.

(** Five fields instead of six: [MustAddJob] panics with the error. *)
Lemma MustAddJob_spec_witness :
  ex_MustAddJob 100 (mkCrontab tt [ex_job]) "* * * * *" (Some V_myFunc2) ex_args
  = Some (PanicErr ErrComponents, mkCrontab tt [ex_job]) /\
  (forall e, PanicErr ErrComponents = PanicErr e <->
             ex_AddJob 100 (mkCrontab tt [ex_job]) "* * * * *" (Some V_myFunc2) ex_args
             = Some (Returned (Some e), mkCrontab tt [ex_job])).
Proof.
  split; [vm_compute; reflexivity|].
  apply (MustAddJob_spec ex_value ex_type unit
           ex_TypeOf ex_KindOf ex_Ins ex_Implements 100
           (mkCrontab tt [ex_job]) (mkCrontab tt [ex_job])
           "* * * * *" (Some V_myFunc2) ex_args (PanicErr ErrComponents)).
  vm_compute. reflexivity.
Defined.

(** The registration of the documentation on an empty table, and the runs
    after it. *)
Lemma AddJob_then_run_witness :
  ex_AddJob 100 (mkCrontab tt []) "0 0 0 * * 1,2" (Some V_myFunc2) ex_args
  = Some (Returned None, mkCrontab tt [ex_job]) /\
  (Returned None = Returned None ->
     exists j, parseSchedule 100 "0 0 0 * * 1,2" = Some (j, None) /\
       (forall t, ex_runScheduled (mkCrontab tt [ex_job]) t
                  = (ex_runScheduled (mkCrontab tt []) t ++
                     (if job_tick j (ex_getTick t)
                      then [set_fn_args j (Some V_myFunc2) ex_args] else []))%list) /\
       RunAll (mkCrontab tt [ex_job])
       = (RunAll (mkCrontab tt []) ++ [set_fn_args j (Some V_myFunc2) ex_args])%list).
Proof.
  split; [vm_compute; reflexivity|].
  apply (AddJob_then_run ex_value ex_type unit
           ex_TypeOf ex_KindOf ex_Ins ex_Implements tick
           tick_second tick_min tick_hour tick_day tick_month tick_dayOfWeek
           100 (mkCrontab tt []) (mkCrontab tt [ex_job])
           "0 0 0 * * 1,2" (Some V_myFunc2) ex_args (Returned None)).
  vm_compute. reflexivity.
Defined.

(** ** Integers and refused bases *)

Lemma no_slash_digits (d : string) : all_digits d = true -> no_slash d = true.
Proof.
  intros Hd. rewrite <- (append_empty_r d).
  apply no_slash_digits_app; [exact Hd|reflexivity].
Qed.

Lemma Split_digits (d : string) :
  all_digits d = true -> Split d "," = [d].
Proof.
  induction d as [|c d IH]; [reflexivity|].
  simpl. intros [Hc Hd]%andb_prop.
  replace (Ascii.eqb c ",") with false by (revert Hc; by_ascii c).
  rewrite (IH Hd). reflexivity.
Qed.

Lemma matchRange_digits (d : string) :
  all_digits d = true -> matchRange d = None.
Proof. intros Hd. unfold matchRange. rewrite (span_digits_all _ Hd). reflexivity. Qed.

Lemma digits_not_star (d : string) :
  all_digits d = true -> String.eqb d "*" = false.
Proof.
  destruct d as [|c d]; [reflexivity|]. simpl. intros [Hc _]%andb_prop.
  replace (Ascii.eqb c "*") with false by (revert Hc; by_ascii c). reflexivity.
Qed.

(** X19. A field that is one integer within the bound returns the set of
    that integer alone, with any fuel; the same integer written with a
    plus sign before it is accepted too, with the same set. *)
Theorem parsePart_integer (fuel : nat) (d : string) (min max : Z) :
  all_digits d = true -> nonempty d = true ->
  decimal 0 d <= MaxInt -> min <= decimal 0 d <= max ->
  parsePart fuel d min max = Some (Ok {[ decimal 0 d ]}) /\
  parsePart fuel (String "+" d) min max = Some (Ok {[ decimal 0 d ]}).
Proof.
  intros Hd Hne Hfit Hin.
  assert (Hval : Atoi d = (decimal 0 d, true)).
  { rewrite (Atoi_digits _ Hd Hne).
    destruct (Z.geb_spec (decimal 0 d) (2 ^ 63)) as [Hge|_]; [|reflexivity].
    unfold MaxInt in Hfit. lia. }
  assert (Hplus : Atoi (String "+" d) = (decimal 0 d, true)).
  { unfold Atoi. rewrite Hne, Hd. cbn [andb negb].
    destruct (Z.geb_spec (decimal 0 d) (2 ^ 63)) as [Hge|_]; [|reflexivity].
    unfold MaxInt in Hfit. lia. }
  assert (Hbound : ((decimal 0 d <? min) || (decimal 0 d >? max)) = false).
  { apply orb_false_iff. rewrite Z.ltb_ge, Z.gtb_ltb, Z.ltb_ge. lia. }
  assert (Hsize : (Z.of_nat (size ({[ decimal 0 d ]} ∪ ∅ : gset Z)) =? 0) = false).
  { rewrite union_empty_r_L, size_singleton. reflexivity. }
  split.
  - unfold parsePart.
    rewrite (digits_not_star _ Hd), (matchN_here_no_slash_all d).
    + rewrite (Split_digits _ Hd). cbn [parse_terms].
      rewrite (matchRange_digits _ Hd), Hval, Hbound, Hsize, union_empty_r_L.
      reflexivity.
    + apply no_slash_digits. exact Hd.
  - unfold parsePart.
    assert (Hns : no_slash (String "+" d) = true)
      by (cbn [no_slash]; rewrite (no_slash_digits _ Hd); reflexivity).
    rewrite (matchN_here_no_slash_all _ Hns).
    replace (String.eqb (String "+" d) "*") with false by reflexivity.
    replace (Split (String "+" d) ",") with [String "+" d]
      by (cbn [Split]; rewrite (Split_digits _ Hd); reflexivity).
    cbn [parse_terms].
    replace (matchRange (String "+" d)) with (@None (string * string)) by reflexivity.
    rewrite Hplus, Hbound, Hsize, union_empty_r_L. reflexivity.
Qed.

(** The hour 12, with and without a sign. *)
Lemma parsePart_integer_witness :
  parsePart 0 "12" 0 23 = Some (Ok {[ 12 ]}) /\
  parsePart 0 "+12" 0 23 = Some (Ok {[ 12 ]}).
Proof.
  apply (parsePart_integer 0 "12" 0 23); [reflexivity|reflexivity|discriminate|].
  split; discriminate.
Defined.



(** ** Schedules away from overflow *)

Lemma day_switch_subset {value : Type} (j : job value) :
  job_second (day_switch j) = job_second j /\
  job_min (day_switch j) = job_min j /\
  job_hour (day_switch j) = job_hour j /\
  job_month (day_switch j) = job_month j /\
  job_day (day_switch j) ⊆ job_day j /\
  job_dayOfWeek (day_switch j) ⊆ job_dayOfWeek j.
Proof.
  unfold day_switch.
  destruct ((size (job_day j) <? 31)%nat && (size (job_dayOfWeek j) =? 7)%nat);
    [|destruct ((size (job_dayOfWeek j) <? 7)%nat && (size (job_day j) =? 31)%nat)];
    cbn [set_day set_dayOfWeek job_second job_min job_hour job_day job_month
         job_dayOfWeek];
    repeat split; set_solver.
Qed.

(** X21. A parsed job holds calendar values only, when no step of the
    expression can overflow: its seconds and minutes lie in 0..59, its
    hours in 0..23, its days of month in 1..31, its months in 1..12 and
    its days of week in 0..6. *)
Theorem parseSchedule_in_calendar {value : Type} (fuel : nat) (s : string)
    (j : job value) :
  Forall step_fits (Split (matchSpaces_ReplaceAll s) " ") ->
  parseSchedule fuel s = Some (j, None) ->
  (forall x, x ∈ job_second j -> 0 <= x <= 59) /\
  (forall x, x ∈ job_min j -> 0 <= x <= 59) /\
  (forall x, x ∈ job_hour j -> 0 <= x <= 23) /\
  (forall x, x ∈ job_day j -> 1 <= x <= 31) /\
  (forall x, x ∈ job_month j -> 1 <= x <= 12) /\
  (forall x, x ∈ job_dayOfWeek j -> 0 <= x <= 6).
Proof.
  intros Hfits Hparse.
  destruct (parseSchedule_success _ _ _ Hparse)
    as (p0 & p1 & p2 & p3 & p4 & p5 & r0 & r1 & r2 & d & r4 & w &
        Hs & H0 & H1 & H2 & H3 & H4 & H5 & ->).
  rewrite Hs in Hfits.
  apply Forall_cons in Hfits as [F0 Hfits]. apply Forall_cons in Hfits as [F1 Hfits].
  apply Forall_cons in Hfits as [F2 Hfits]. apply Forall_cons in Hfits as [F3 Hfits].
  apply Forall_cons in Hfits as [F4 Hfits]. apply Forall_cons in Hfits as [F5 _].
  assert (Hpart : forall fuel p lo hi r, step_fits p -> 0 <= lo -> hi <= 59 ->
            parsePart fuel p lo hi = Some (Ok r) ->
            forall x, x ∈ r -> lo <= x <= hi).
  { intros f p lo hi r Hp Hlo Hhi Hr.
    apply (parsePart_in_bound f p lo hi r); [unfold MinInt; lia|unfold MaxInt; lia| |exact Hr].
    intros m1 m2 Hm. specialize (Hp m1 m2 Hm). lia. }
  destruct (day_switch_subset (mkJob r0 r1 r2 d r4 w (@None value) []))
    as (-> & -> & -> & -> & Hd & Hw).
  cbn [job_second job_min job_hour job_day job_month job_dayOfWeek] in *.
  split; [exact (Hpart fuel p0 0 59 r0 F0 ltac:(lia) ltac:(lia) H0)|].
  split; [exact (Hpart fuel p1 0 59 r1 F1 ltac:(lia) ltac:(lia) H1)|].
  split; [exact (Hpart fuel p2 0 23 r2 F2 ltac:(lia) ltac:(lia) H2)|].
  split; [intros x Hx;
          exact (Hpart fuel p3 1 31 d F3 ltac:(lia) ltac:(lia) H3 x (Hd x Hx))|].
  split; [exact (Hpart fuel p4 1 12 r4 F4 ltac:(lia) ltac:(lia) H4)|].
  intros x Hx. exact (Hpart fuel p5 0 6 w F5 ltac:(lia) ltac:(lia) H5 x (Hw x Hx)).
Qed.

Lemma parse_field_returns {value : Type} (p : option (result (gset Z)))
    (set : gset Z -> job value) (k : job value -> option (job value * option error)) :
  (exists res, p = Some res) ->
  (forall j, exists out, k j = Some out) ->
  exists out, parse_field value p set k = Some out.
Proof.
  intros [[r|e] ->] Hk; cbn [parse_field]; eauto.
Qed.

Lemma parseSchedule_returns {value : Type} (fuel : nat) (s : string) :
  Forall (fun p => step_positive p /\ step_fits p)
         (Split (matchSpaces_ReplaceAll s) " ") ->
  (60 < fuel)%nat ->
  exists out, parseSchedule (value := value) fuel s = Some out.
Proof.
  intros Hsane Hfuel. unfold parseSchedule.
  destruct (Split (matchSpaces_ReplaceAll s) " ")
    as [|p0 [|p1 [|p2 [|p3 [|p4 [|p5 [|p6 rest]]]]]]]; eauto.
  apply Forall_cons in Hsane as [F0 Hsane]. apply Forall_cons in Hsane as [F1 Hsane].
  apply Forall_cons in Hsane as [F2 Hsane]. apply Forall_cons in Hsane as [F3 Hsane].
  apply Forall_cons in Hsane as [F4 Hsane]. apply Forall_cons in Hsane as [F5 _].
  assert (Hpart : forall p lo hi,
            step_positive p /\ step_fits p -> 0 <= lo -> hi <= 59 ->
            exists res, parsePart fuel p lo hi = Some res).
  { intros p lo hi [Hpos Hfit] Hlo Hhi.
    apply parsePart_returns; [unfold MinInt; lia|unfold MaxInt; lia| |lia|lia].
    intros m1 m2 Hm. specialize (Hpos m1 m2 Hm). specialize (Hfit m1 m2 Hm). lia. }
  apply parse_field_returns; [apply Hpart; [exact F0|lia..]|intros j0].
  apply parse_field_returns; [apply Hpart; [exact F1|lia..]|intros j1].
  apply parse_field_returns; [apply Hpart; [exact F2|lia..]|intros j2].
  apply parse_field_returns; [apply Hpart; [exact F3|lia..]|intros j3].
  apply parse_field_returns; [apply Hpart; [exact F4|lia..]|intros j4].
  apply parse_field_returns; [apply Hpart; [exact F5|lia..]|intros j5].
  eauto.
Qed.

Section AddJob_returns.

Variable value : Type.
Variable rtype : Type.
Context `{EqDecision rtype}.
Variable Ticker : Type.
Variable TypeOf : value -> rtype.
Variable KindOf : rtype -> Kind.
Variable Ins : rtype -> list rtype.
Variable Implements : rtype -> rtype -> bool.

(** X22. [AddJob] ends, by a return or a panic, with any fuel above 60,
    for every expression none of whose fields is a step term with a step
    of zero or a step that can overflow, whatever the callable and the
    arguments are. *)
Theorem AddJob_ends (fuel : nat) (c : Crontab value Ticker) (schedule : string)
    (fn : option value) (args : list (option value)) :
  Forall (fun p => step_positive p /\ step_fits p)
         (Split (matchSpaces_ReplaceAll schedule) " ") ->
  (60 < fuel)%nat ->
  exists o c', AddJob TypeOf KindOf Ins Implements fuel c schedule fn args
               = Some (o, c').
Proof.
  intros Hsane Hfuel. unfold AddJob.
  destruct (parseSchedule_returns (value := value) fuel schedule Hsane Hfuel)
    as [[j [err|]] ->]; [eauto|].
  destruct fn as [f|]; [|eauto].
  destruct (negb (bool_decide (KindOf (TypeOf f) = Func))); [eauto|].
  destruct (negb (length args =? length (Ins (TypeOf f)))%nat); [eauto|].
  destruct (check_params _ _ _ _ _ _ _ _) as [[e|]|]; eauto.
Qed.

End AddJob_returns.

Lemma steps_of_first_of_month :
  Forall (fun p => step_positive p /\ step_fits p)
         (Split (matchSpaces_ReplaceAll "0 */5 12 1 * *") " ").
Proof.
  repeat (apply Forall_cons; split;
          [split; intros m1 m2 Hm; vm_compute in Hm;
           first [discriminate Hm | injection Hm as <- <-; discriminate]|]).
  apply Forall_nil. exact I.
Qed.

(** Every fifth minute of noon, on the first of the month. *)
Lemma parseSchedule_in_calendar_witness :
  parseSchedule 100 "0 */5 12 1 * *"
  = Some (mkJob {[ 0 ]} (list_to_set ((fun k => 5 * k) <$> seqZ 0 12)) {[ 12 ]}
                {[ 1 ]} (list_to_set (seqZ 1 12)) ∅ (@None unit) [], None) /\
  (forall x, x ∈ (list_to_set ((fun k => 5 * k) <$> seqZ 0 12) : gset Z) ->
             0 <= x <= 59).
Proof.
  split; [vm_compute; reflexivity|].
  apply (parseSchedule_in_calendar 100 "0 */5 12 1 * *"
           (mkJob {[ 0 ]} (list_to_set ((fun k => 5 * k) <$> seqZ 0 12)) {[ 12 ]}
                  {[ 1 ]} (list_to_set (seqZ 1 12)) ∅ (@None unit) []));
    [|vm_compute; reflexivity].
  apply Forall_impl with (P := fun p => step_positive p /\ step_fits p);
    [exact steps_of_first_of_month|]. intros p [_ Hp]. exact Hp.
Defined.

Lemma AddJob_ends_witness :
  exists o c', ex_AddJob 61 (mkCrontab tt []) "0 */5 12 1 * *"
                 (Some V_myFunc2) ex_args = Some (o, c').
Proof.
  apply (AddJob_ends ex_value ex_type unit ex_TypeOf ex_KindOf ex_Ins
           ex_Implements 61 (mkCrontab tt []) "0 */5 12 1 * *"
           (Some V_myFunc2) ex_args);
    [exact steps_of_first_of_month|lia].
Defined.
